(** * The three-layer point cloud of [Download_Activity .py]

    The script turns a table of cities, each carrying the traffic of its
    country, into a list of (lat, lon) sample points.  This file embeds
    sections 3 to 5 of the script (lines 107-190): the population weights,
    the log compression, the point count of every city, the three-layer
    jitter loop and the final down-sampling; and, before them, sections 1
    and 2 and the merge (lines 51-102): the cleaning of the two tables, the
    units, the country totals and the inner join.

    Numbers.  A pandas float column holds IEEE values.  [float64] keeps the
    three special values apart and carries a finite value as the rational
    it denotes, so finite arithmetic is exact here: rounding and overflow
    of binary64 are not part of this model.  Where rounding itself is the
    question, module [Binary64] repeats lines 107-109 on hardware floats.

    Library code.  [np.log1p], the global NumPy generator and the
    permutation behind [DataFrame.sample] are not part of the script; they
    are the fields of the class [NumPy]. *)

From Stdlib Require Import ZArith QArith Qround Lqa Lia List String Ascii Bool.
From Stdlib Require Import Sorting Permutation.
From Stdlib Require PrimFloat.
Import ListNotations.

Set Implicit Arguments.

(** ** Exceptions and results *)

Inductive exn : Type :=
| ValueError (msg : string).

Inductive result (A : Type) : Type :=
| Ok (a : A)
| Raise (e : exn).

Arguments Ok {A} a.
Arguments Raise {A} e.

(** ** Float values *)

Inductive float64 : Type :=
| NaN
| PInf
| NInf
| Fin (q : Q).

Definition Qltb (a b : Q) : bool := negb (Qle_bool b a).

Definition isnan (x : float64) : bool :=
  match x with NaN => true | _ => false end.

Definition isinf (x : float64) : bool :=
  match x with PInf | NInf => true | _ => false end.

Definition isfinite (x : float64) : bool :=
  match x with Fin _ => true | _ => false end.

(** [x < y]; every comparison with NaN is false. *)
Definition fltb (x y : float64) : bool :=
  match x, y with
  | NaN, _ | _, NaN => false
  | _, NInf => false
  | NInf, _ => true
  | PInf, _ => false
  | _, PInf => true
  | Fin a, Fin b => Qltb a b
  end.

(** The pandas test [col > 0]. *)
Definition gt0 (x : float64) : bool := fltb (Fin 0) x.

Definition fadd (x y : float64) : float64 :=
  match x, y with
  | NaN, _ | _, NaN => NaN
  | PInf, NInf | NInf, PInf => NaN
  | PInf, _ | _, PInf => PInf
  | NInf, _ | _, NInf => NInf
  | Fin a, Fin b => Fin (a + b)
  end.

(** An infinity of sign [pos] times the finite [q]. *)
Definition inf_times (pos : bool) (q : Q) : float64 :=
  if Qeq_bool q 0 then NaN
  else if Bool.eqb pos (Qltb 0 q) then PInf else NInf.

Definition fmul (x y : float64) : float64 :=
  match x, y with
  | NaN, _ | _, NaN => NaN
  | PInf, PInf | NInf, NInf => PInf
  | PInf, NInf | NInf, PInf => NInf
  | PInf, Fin q | Fin q, PInf => inf_times true q
  | NInf, Fin q | Fin q, NInf => inf_times false q
  | Fin a, Fin b => Fin (a * b)
  end.

(** Division never raises on a float column: a zero divisor gives an
    infinity or NaN.  The zero of this model is the positive one. *)
Definition fdiv (x y : float64) : float64 :=
  match x, y with
  | NaN, _ | _, NaN => NaN
  | PInf, PInf | PInf, NInf | NInf, PInf | NInf, NInf => NaN
  | PInf, Fin b => if Qle_bool 0 b then PInf else NInf
  | NInf, Fin b => if Qle_bool 0 b then NInf else PInf
  | Fin _, PInf | Fin _, NInf => Fin 0
  | Fin a, Fin b =>
      if Qeq_bool b 0 then
        (if Qeq_bool a 0 then NaN else if Qltb 0 a then PInf else NInf)
      else Fin (a / b)
  end.

(** [Series.replace([np.inf, -np.inf], np.nan)] on one value. *)
Definition replace_inf (x : float64) : float64 :=
  if isinf x then NaN else x.

(** [Series.fillna(v)] on one value. *)
Definition fillna (v : Q) (x : float64) : float64 :=
  if isnan x then Fin v else x.

(** [Series.clip(lower=lo)]: NaN stays NaN. *)
Definition clip_lower (lo : Q) (x : float64) : float64 :=
  if fltb x (Fin lo) then Fin lo else x.

(** [np.floor] on one value. *)
Definition ffloor (x : float64) : float64 :=
  match x with
  | Fin q => Fin (inject_Z (Qfloor q))
  | _ => x
  end.

Definition msg_non_finite : string :=
  "Cannot convert non-finite values (NA or inf) to integer".

(** [Series.astype(int)] on one value: pandas refuses NaN and the
    infinities. *)
Definition astype_int (x : float64) : result Z :=
  match x with
  | Fin q => Ok (Qfloor q)
  | _ => Raise (ValueError msg_non_finite)
  end.

(** Python's [int(x)] on a finite float: truncation toward zero. *)
Definition int_of_float (q : Q) : Z := Z.quot (Qnum q) (Zpos (Qden q)).

(** A sum that skips NaN, as [groupby(...).transform("sum")] does. *)
Definition nansum (l : list float64) : float64 :=
  fold_left fadd (filter (fun x => negb (isnan x)) l) (Fin 0).

Definition fmax (x y : float64) : float64 := if fltb x y then y else x.

(** [Series.max()]: the largest value that is not NaN, NaN when there is
    none. *)
Definition nanmax (l : list float64) : float64 :=
  match filter (fun x => negb (isnan x)) l with
  | [] => NaN
  | x :: xs => fold_left fmax xs x
  end.

(** ** Configuration (class [SteamMapConfig], the fields the point cloud
    reads) *)

Record SteamMapConfig : Type := {
  POINT_SCALE : Q;
  MAX_POINTS_PER_CITY : Z;
  MAX_TOTAL_POINTS : Z;
  CORE_RATIO : Q;
  MID_RATIO : Q;
  OUTER_RATIO : Q;
  CORE_JITTER : Q;
  MID_JITTER : Q;
  OUTER_JITTER : Q
}.

Definition config : SteamMapConfig := {|
  POINT_SCALE := 200;
  MAX_POINTS_PER_CITY := 1500;
  MAX_TOTAL_POINTS := 4000000;
  CORE_RATIO := 40 # 100;
  MID_RATIO := 35 # 100;
  OUTER_RATIO := 25 # 100;
  CORE_JITTER := 6 # 100;
  MID_JITTER := 20 # 100;
  OUTER_JITTER := 50 # 100
|}.

(** ** The library the script calls *)

Class NumPy : Type := {
  (** the state of a [RandomState] *)
  rng : Type;
  (** the state [np.random.seed(s)] installs *)
  seed_state : Z -> rng;
  (** one draw of [np.random.normal(loc, scale)] *)
  normal : float64 -> Q -> rng -> float64 * rng;
  (** [RandomState.permutation(n)] *)
  permutation : rng -> nat -> list nat;
  (** [np.log1p] on a finite argument above -1 *)
  ln1p : Q -> Q
}.

(** What the proofs use of the logarithm. *)
Record Log1pLaws (np : NumPy) : Prop := {
  ln1p_0 : ln1p 0 == 0;
  ln1p_mono : forall a b : Q, -1 < a -> a <= b -> ln1p a <= ln1p b;
  ln1p_pos : forall a : Q, 0 < a -> 0 < ln1p a
}.

(** ** The merged table *)

(** One row of [merged] after the inner join of line 102. *)
Record City : Type := {
  iso3 : string;
  lat : float64;
  lng : float64;
  population : float64;
  traffic_tb : float64
}.

Section Density.

Context {np : NumPy}.

(** [np.log1p] on one value: NaN below -1, minus infinity at -1. *)
Definition log1p (x : float64) : float64 :=
  match x with
  | NaN => NaN
  | PInf => PInf
  | NInf => NaN
  | Fin q =>
      if Qltb q (-1) then NaN
      else if Qeq_bool q (-1) then NInf
      else Fin (ln1p q)
  end.

(** Line 107: the population of the row's country, summed over the rows of
    [merged] that share its [iso3]. *)
Definition country_pop (merged : list City) (c : City) : float64 :=
  nansum (map population
            (filter (fun d => String.eqb (iso3 d) (iso3 c)) merged)).

(** Line 108: the rows that stay. *)
Definition kept (merged : list City) : list City :=
  filter (fun c => gt0 (country_pop merged c)) merged.

(** Line 109. *)
Definition pop_weight (merged : list City) (c : City) : float64 :=
  fdiv (population c) (country_pop merged c).

(** Line 110, before the outliers are handled. *)
Definition city_traffic_raw (merged : list City) (c : City) : float64 :=
  fmul (traffic_tb c) (pop_weight merged c).

(** Lines 113-114. *)
Definition city_traffic_tb (merged : list City) (c : City) : float64 :=
  fillna 0 (replace_inf (city_traffic_raw merged c)).

(** Line 122. *)
Definition city_traffic_log_raw (merged : list City) (c : City) : float64 :=
  log1p (city_traffic_tb merged c).

(** Line 123. *)
Definition max_log (merged : list City) : float64 :=
  nanmax (map (city_traffic_log_raw merged) (kept merged)).

(** Lines 124-125: the column after the optional normalisation. *)
Definition city_traffic_log (merged : list City) (c : City) : float64 :=
  if gt0 (max_log merged)
  then fdiv (city_traffic_log_raw merged c) (max_log merged)
  else city_traffic_log_raw merged c.

(** Lines 128-136 on one value of the column [city_traffic_log]: scale,
    clip below at 0, floor and cast; at least one point for a city with
    traffic; at most [MAX_POINTS_PER_CITY]. *)
Definition num_points_float (cfg : SteamMapConfig) (log : float64) : float64 :=
  clip_lower 0 (fmul log (Fin (POINT_SCALE cfg))).

Definition num_points_of (cfg : SteamMapConfig) (log : float64) : result Z :=
  match astype_int (ffloor (num_points_float cfg log)) with
  | Raise e => Raise e
  | Ok n =>
      let n1 := if (n =? 0)%Z && gt0 log then 1%Z else n in
      Ok (Z.min n1 (MAX_POINTS_PER_CITY cfg))
  end.

(** The [num_points] of one row of [merged]. *)
Definition num_points (cfg : SteamMapConfig) (merged : list City)
    (c : City) : result Z :=
  num_points_of cfg (city_traffic_log merged c).

(** The column [num_points] of the kept rows. *)
Fixpoint num_points_rows (cfg : SteamMapConfig) (merged : list City)
    (rows : list City) : result (list Z) :=
  match rows with
  | [] => Ok []
  | c :: rest =>
      match num_points cfg merged c with
      | Raise e => Raise e
      | Ok n =>
          match num_points_rows cfg merged rest with
          | Raise e => Raise e
          | Ok ns => Ok (n :: ns)
          end
      end
  end.

Definition num_points_column (cfg : SteamMapConfig) (merged : list City)
    : result (list Z) :=
  num_points_rows cfg merged (kept merged).

End Density.

(** ** The generator monad: the global NumPy state, and exceptions *)

Section Cloud.

Context {np : NumPy}.

Definition M (A : Type) : Type := rng -> result (A * rng).

Definition ret {A : Type} (a : A) : M A := fun g => Ok (a, g).

Definition bind {A B : Type} (m : M A) (k : A -> M B) : M B :=
  fun g =>
    match m g with
    | Ok (a, g') => k a g'
    | Raise e => Raise e
    end.

Definition raise {A : Type} (e : exn) : M A := fun _ => Raise e.

Notation "x <- m ;; k" := (bind m (fun x => k))
  (at level 100, m at next level, right associativity).

(** Line 146: [np.random.seed(s)] overwrites the global state. *)
Definition np_random_seed (s : Z) : M unit :=
  fun _ => Ok (tt, seed_state s).

(** [n] draws in a row, each from the state the one before left. *)
Fixpoint draws (loc : float64) (scale : Q) (n : nat) (g : rng)
    : list float64 * rng :=
  match n with
  | O => ([], g)
  | S k =>
      let (x, g1) := normal loc scale g in
      let (xs, g2) := draws loc scale k g1 in
      (x :: xs, g2)
  end.

Definition msg_scale : string := "scale < 0".

(** [np.random.normal(loc, scale, size)]: an array of [size] draws; NumPy
    refuses a negative scale. *)
Definition np_random_normal (loc : float64) (scale : Q) (size : Z)
    : M (list float64) :=
  fun g =>
    if Qltb scale 0 then Raise (ValueError msg_scale)
    else Ok (draws loc scale (Z.to_nat size) g).

(** The two Python lists [lats] and [lons], each a list of arrays. *)
Definition Arrays : Type := (list (list float64) * list (list float64))%type.

(** The three layer sizes of lines 160, 166 and 172. *)
Definition n_core (cfg : SteamMapConfig) (total : Z) : Z :=
  int_of_float (inject_Z total * CORE_RATIO cfg).

Definition n_mid (cfg : SteamMapConfig) (total : Z) : Z :=
  int_of_float (inject_Z total * MID_RATIO cfg).

Definition n_outer (cfg : SteamMapConfig) (total : Z) : Z :=
  (total - n_core cfg total - n_mid cfg total)%Z.

(** One layer (lines 161-163, 167-169, 173-175): when [n > 0], an array of
    latitudes and then an array of longitudes are drawn and appended. *)
Definition layer (c : City) (jitter : Q) (n : Z) (acc : Arrays) : M Arrays :=
  if (n >? 0)%Z then
    la <- np_random_normal (lat c) jitter n ;;
    lo <- np_random_normal (lng c) jitter n ;;
    ret (fst acc ++ [la], snd acc ++ [lo])
  else ret acc.

(** The body of the loop of line 151 for one row. *)
Definition city_points (cfg : SteamMapConfig) (c : City) (total : Z)
    (acc : Arrays) : M Arrays :=
  if (total <=? 0)%Z then ret acc
  else
    acc1 <- layer c (CORE_JITTER cfg) (n_core cfg total) acc ;;
    acc2 <- layer c (MID_JITTER cfg) (n_mid cfg total) acc1 ;;
    layer c (OUTER_JITTER cfg) (n_outer cfg total) acc2.

(** The loop of line 151 over the rows and their [num_points]. *)
Fixpoint iterrows (cfg : SteamMapConfig) (rows : list (City * Z))
    (acc : Arrays) : M Arrays :=
  match rows with
  | [] => ret acc
  | (c, total) :: rest =>
      acc' <- city_points cfg c total acc ;;
      iterrows cfg rest acc'
  end.

Definition msg_no_points : string :=
  "No points generated, please check data or increase POINT_SCALE".

Definition msg_negative_rows : string :=
  "A negative number of rows requested. Please provide `n` >= 0.".

Definition msg_larger_sample : string :=
  "Cannot take a larger sample than population when 'replace=False'".

(** Rows by position, in the order of the positions; a position past the
    end selects nothing (a permutation of the positions holds none). *)
Definition take {A : Type} (idx : list nat) (l : list A) : list A :=
  flat_map (fun i => match nth_error l i with
                     | Some x => [x]
                     | None => []
                     end) idx.

(** [DataFrame.sample(n, random_state=s)]: the first [n] entries of a
    permutation drawn from a generator of its own, seeded with [s]. *)
Definition sample {A : Type} (l : list A) (n : Z) (random_state : Z)
    : result (list A) :=
  if (n <? 0)%Z then Raise (ValueError msg_negative_rows)
  else if (Z.of_nat (List.length l) <? n)%Z then Raise (ValueError msg_larger_sample)
  else Ok (take (firstn (Z.to_nat n)
                   (permutation (seed_state random_state) (List.length l))) l).

Definition Point : Type := (float64 * float64)%type.

(** Lines 146-187: seed, loop, the check for an empty result, the frame
    [points] and its down-sampling. *)
Definition generate (cfg : SteamMapConfig) (rows : list (City * Z))
    : M (list Point) :=
  _ <- np_random_seed 42 ;;
  arrays <- iterrows cfg rows ([], []) ;;
  match fst arrays with
  | [] => raise (ValueError msg_no_points)
  | _ :: _ =>
      let points := combine (List.concat (fst arrays)) (List.concat (snd arrays)) in
      if (Z.of_nat (List.length points) >? MAX_TOTAL_POINTS cfg)%Z then
        match sample points (MAX_TOTAL_POINTS cfg) 42 with
        | Ok sampled => ret sampled
        | Raise e => raise e
        end
      else ret points
  end.

(** Lines 107-187 on the table [merged]. *)
Definition point_cloud (cfg : SteamMapConfig) (merged : list City)
    : M (list Point) :=
  match num_points_column cfg merged with
  | Raise e => raise e
  | Ok nums => generate cfg (combine (kept merged) nums)
  end.

End Cloud.

(** ** The tables before the point cloud (lines 51-102) *)

(** Text. *)

(** The ASCII characters [str.strip()] removes. *)
Definition is_space (a : ascii) : bool :=
  let n := nat_of_ascii a in
  ((9 <=? n) && (n <=? 13) || (28 <=? n) && (n <=? 32))%nat.

Fixpoint lstrip (l : list ascii) : list ascii :=
  match l with
  | a :: rest => if is_space a then lstrip rest else l
  | [] => []
  end.

(** [str.strip()] on ASCII text. *)
Definition strip (s : string) : string :=
  string_of_list_ascii
    (rev (lstrip (rev (lstrip (list_ascii_of_string s))))).

(** The traffic table. *)

(** One row of [traffic_iso3.csv]; a missing cell is [None], and [value]
    is the cell after [pd.to_numeric(..., errors="coerce")] of line 62. *)
Record TrafficRow : Type := {
  tr_iso3 : option string;
  tr_country : option string;
  tr_value : float64;
  tr_unit : option string
}.

(** Lines 70-77. *)
Definition unit_to_tb : list (string * Q) :=
  [("TB", 1); ("PB", 1024); ("GB", 1 # 1024); ("MB", 1 # 1048576);
   ("KB", 1 # 1073741824); ("B", 1 # 1099511627776)]%string.

Fixpoint lookup (k : string) (d : list (string * Q)) : option Q :=
  match d with
  | [] => None
  | (k', v) :: rest => if String.eqb k' k then Some v else lookup k rest
  end.

(** [astype(str)] on one cell: a missing cell reads "nan". *)
Definition astype_str (u : option string) : string :=
  match u with Some s => s | None => "nan"%string end.

(** [Series.map(unit_to_tb)] on one cell: NaN for a unit the dictionary
    does not hold. *)
Definition map_unit (u : string) : float64 :=
  match lookup u unit_to_tb with Some f => Fin f | None => NaN end.

(** Lines 79-80 for one row. *)
Definition row_traffic_tb (r : TrafficRow) : float64 :=
  fmul (tr_value r) (map_unit (strip (astype_str (tr_unit r)))).

(** Line 55: the rows with a country code whose country is not "Unknown";
    each with its code. *)
Definition named_traffic (traffic : list TrafficRow)
    : list (string * TrafficRow) :=
  flat_map (fun r =>
              match tr_iso3 r with
              | Some k =>
                  match tr_country r with
                  | Some n => if String.eqb n "Unknown" then [] else [(k, r)]
                  | None => [(k, r)]
                  end
              | None => []
              end) traffic.

(** Lines 79-81: code and terabytes of the rows whose terabytes are not
    NaN. *)
Definition traffic_tb_rows (traffic : list TrafficRow)
    : list (string * float64) :=
  filter (fun kt => negb (isnan (snd kt)))
         (map (fun kr => (fst kr, row_traffic_tb (snd kr)))
              (named_traffic traffic)).

(** The group keys of [groupby]: every key once, in ascending order. *)
Fixpoint insert_key (k : string) (l : list string) : list string :=
  match l with
  | [] => [k]
  | x :: rest => if String.leb k x then k :: l else x :: insert_key k rest
  end.

Definition group_keys (keys : list string) : list string :=
  fold_right insert_key [] (nodup string_dec keys).

(** Line 84: [groupby("iso3", as_index=False)["traffic_tb"].sum()]. *)
Definition groupby_sum (rows : list (string * float64))
    : list (string * float64) :=
  map (fun k => (k, nansum (map snd
                     (filter (fun kt => String.eqb (fst kt) k) rows))))
      (group_keys (map fst rows)).

Definition traffic_iso (traffic : list TrafficRow) : list (string * float64) :=
  groupby_sum (traffic_tb_rows traffic).

(** The city table. *)

(** One row of [cities_iso3.csv]; [population] is the cell after
    [pd.to_numeric(..., errors="coerce")] of line 63. *)
Record CityRow : Type := {
  ci_iso3 : option string;
  ci_lat : float64;
  ci_lng : float64;
  ci_population : float64
}.

(** [x <= y]; false when one is NaN. *)
Definition fleb (x y : float64) : bool :=
  match x, y with
  | NaN, _ | _, NaN => false
  | NInf, _ => true
  | _, PInf => true
  | _, NInf => false
  | PInf, _ => false
  | Fin a, Fin b => Qle_bool a b
  end.

(** [Series.between(lo, hi)], both ends included. *)
Definition between (lo hi : Q) (x : float64) : bool :=
  fleb (Fin lo) x && fleb x (Fin hi).

(** Lines 56, 94 and 97-100: the rows with a country code, a positive
    population and coordinates on the globe; each with its code. *)
Definition valid_cities (cities : list CityRow) : list (string * CityRow) :=
  flat_map (fun c =>
              match ci_iso3 c with
              | Some k =>
                  if gt0 (ci_population c)
                     && (between (-90) 90 (ci_lat c)
                         && between (-180) 180 (ci_lng c))
                  then [(k, c)] else []
              | None => []
              end) cities.

(** Line 102: the inner join on [iso3], in the order of the cities. *)
Definition merge (cities : list (string * CityRow))
    (totals : list (string * float64)) : list City :=
  flat_map (fun kc =>
              map (fun kt => {| iso3 := fst kc;
                                lat := ci_lat (snd kc);
                                lng := ci_lng (snd kc);
                                population := ci_population (snd kc);
                                traffic_tb := snd kt |})
                  (filter (fun kt => String.eqb (fst kt) (fst kc)) totals))
           cities.

(** Lines 55-102: the table [merged] from the two files. *)
Definition merged_of (cities : list CityRow) (traffic : list TrafficRow)
    : list City :=
  merge (valid_cities cities) (traffic_iso traffic).

(** Lines 55-187. *)
Definition steam_map {np : NumPy} (cfg : SteamMapConfig)
    (cities : list CityRow) (traffic : list TrafficRow) : M (list Point) :=
  point_cloud cfg (merged_of cities traffic).

(** Line 138. *)
Definition total_points_est (nums : list Z) : Z := fold_right Z.add 0%Z nums.

(** ** Lines 107-109 on hardware floats *)

Module Binary64.

(** The columns [iso3] and [population] of a row. *)
Definition Row : Type := (string * PrimFloat.float)%type.

Definition sum (l : list PrimFloat.float) : PrimFloat.float :=
  fold_left PrimFloat.add l PrimFloat.zero.

(** Line 107. *)
Definition country_pop (merged : list Row) (c : Row) : PrimFloat.float :=
  sum (map snd (filter (fun d => String.eqb (fst d) (fst c)) merged)).

(** Line 108. *)
Definition kept (merged : list Row) : list Row :=
  filter (fun c => PrimFloat.ltb PrimFloat.zero (country_pop merged c)) merged.

(** Line 109. *)
Definition pop_weight (merged : list Row) (c : Row) : PrimFloat.float :=
  PrimFloat.div (snd c) (country_pop merged c).


End Binary64.

(** ** A small library to run the model on *)

Module Sim.

(** A linear congruential step. *)
Definition next (g : Z) : Z := ((g * 1103515245 + 12345) mod 2147483648)%Z.

(** A draw that moves [loc] by a multiple of [scale] between -2 and 2. *)
Definition normal (loc : float64) (scale : Q) (g : Z) : float64 * Z :=
  (fadd loc (fmul (Fin scale) (Fin (inject_Z ((g / 65536) mod 5 - 2)))),
   next g).

(** A rotation of [0 .. n-1]. *)
Definition permutation (g : Z) (n : nat) : list nat :=
  let k := Z.to_nat (g mod Z.of_nat (S n)) in
  skipn k (seq 0 n) ++ firstn k (seq 0 n).

(** The [1/1] Pade approximant of [log (1 + x)]. *)
Definition ln1p (q : Q) : Q := 2 * q / (2 + q).

#[export] Instance numpy : NumPy :=
  @Build_NumPy Z (fun s => s) normal permutation ln1p.

Definition mkCity (code : string) (la lo : Q) (pop traffic : float64) : City :=
  {| iso3 := code; lat := Fin la; lng := Fin lo;
     population := pop; traffic_tb := traffic |}.

End Sim.

(** * Properties *)

(** ** Comparisons and casts *)

Lemma Ok_inj {A : Type} (a b : A) : Ok a = Ok b -> a = b.
Proof. intros H. injection H as H. exact H. Qed.

Lemma Qltb_true (a b : Q) : Qltb a b = true <-> a < b.
Proof.
  unfold Qltb. rewrite negb_true_iff. split.
  - intros H. apply Qnot_le_lt. intros Hle.
    apply Qle_bool_iff in Hle. congruence.
  - intros H. destruct (Qle_bool b a) eqn:E; [|reflexivity].
    apply Qle_bool_iff in E. exfalso. apply (Qlt_not_le _ _ H E).
Qed.

Lemma Qltb_false (a b : Q) : Qltb a b = false <-> b <= a.
Proof.
  unfold Qltb. rewrite negb_false_iff. apply Qle_bool_iff.
Qed.

Lemma Qeq_bool_false (a b : Q) : Qeq_bool a b = false <-> ~ a == b.
Proof.
  split.
  - apply Qeq_bool_neq.
  - intros H. destruct (Qeq_bool a b) eqn:E; [|reflexivity].
    apply Qeq_bool_iff in E. contradiction.
Qed.

Lemma gt0_Fin (q : Q) : gt0 (Fin q) = true <-> 0 < q.
Proof. unfold gt0. simpl. apply Qltb_true. Qed.

Lemma gt0_Fin_false (q : Q) : gt0 (Fin q) = false <-> q <= 0.
Proof. unfold gt0. simpl. apply Qltb_false. Qed.

Lemma Qfloor_nonneg (q : Q) : 0 <= q -> (0 <= Qfloor q)%Z.
Proof.
  intros H. apply (Qfloor_resp_le 0 q) in H. exact H.
Qed.

Lemma Qfloor_pos_lt (q : Q) : (0 < Qfloor q)%Z -> 0 < q.
Proof.
  intros H. apply Qlt_le_trans with (inject_Z (Qfloor q)).
  - change 0 with (inject_Z 0). rewrite <- Zlt_Qlt. exact H.
  - apply Qfloor_le.
Qed.

(** On a non-negative float Python's truncation is the floor. *)
Lemma int_of_float_nonneg (q : Q) : 0 <= q -> int_of_float q = Qfloor q.
Proof.
  intros H. unfold int_of_float. destruct q as [n d]. simpl.
  apply Z.quot_div_nonneg; [|reflexivity].
  unfold Qle in H. simpl in H. lia.
Qed.

Lemma clip_lower_Fin (q : Q) :
  clip_lower 0 (Fin q) = Fin (if Qltb q 0 then 0 else q).
Proof. unfold clip_lower. simpl. destruct (Qltb q 0); reflexivity. Qed.

(** ** The cleaned traffic is always a finite number *)

Lemma fillna_replace_inf_Fin (x : float64) :
  exists q, fillna 0 (replace_inf x) = Fin q.
Proof.
  destruct x as [| | |q]; simpl.
  - exists 0. reflexivity.
  - exists 0. reflexivity.
  - exists 0. reflexivity.
  - exists q. reflexivity.
Qed.

Lemma clean_non_finite (x : float64) :
  isfinite x = false -> fillna 0 (replace_inf x) = Fin 0.
Proof. destruct x; intros H; try reflexivity. discriminate H. Qed.

Section DensityFacts.

Context {np : NumPy}.

Lemma city_traffic_tb_Fin (merged : list City) (c : City) :
  exists q, city_traffic_tb merged c = Fin q.
Proof. unfold city_traffic_tb. apply fillna_replace_inf_Fin. Qed.

Lemma log1p_nonneg_arg (q : Q) : 0 <= q -> log1p (Fin q) = Fin (ln1p q).
Proof.
  intros H. unfold log1p.
  assert (E1 : Qltb q (-1) = false) by (apply Qltb_false; lra).
  assert (E2 : Qeq_bool q (-1) = false) by (apply Qeq_bool_false; lra).
  rewrite E1, E2. reflexivity.
Qed.

Lemma log1p_not_PInf (q : Q) : log1p (Fin q) <> PInf.
Proof.
  unfold log1p. destruct (Qltb q (-1)); [discriminate|].
  destruct (Qeq_bool q (-1)); discriminate.
Qed.

Hypothesis laws : Log1pLaws np.

Lemma ln1p_nonneg (q : Q) : 0 <= q -> 0 <= ln1p q.
Proof.
  intros H. rewrite <- (ln1p_0 laws). apply (ln1p_mono laws); lra.
Qed.

Lemma ln1p_zero (q : Q) : q == 0 -> ln1p q == 0.
Proof.
  intros H. apply Qle_antisym.
  - rewrite <- (ln1p_0 laws). apply (ln1p_mono laws); lra.
  - apply ln1p_nonneg. lra.
Qed.

End DensityFacts.

(** ** The layer sizes *)

(** Ratios as the configuration is meant to hold them: none negative, and
    the three add up to one. *)
Definition valid_ratios (cfg : SteamMapConfig) : Prop :=
  0 <= CORE_RATIO cfg /\ 0 <= MID_RATIO cfg /\ 0 <= OUTER_RATIO cfg /\
  CORE_RATIO cfg + MID_RATIO cfg + OUTER_RATIO cfg == 1.

Definition valid_jitters (cfg : SteamMapConfig) : Prop :=
  0 <= CORE_JITTER cfg /\ 0 <= MID_JITTER cfg /\ 0 <= OUTER_JITTER cfg.

Lemma config_valid_ratios : valid_ratios config.
Proof. unfold valid_ratios, config; simpl. repeat split; lra. Qed.

Lemma config_valid_jitters : valid_jitters config.
Proof. unfold valid_jitters, config; simpl. repeat split; lra. Qed.

Lemma scaled_floor_nonneg (total : Z) (r : Q) :
  (0 <= total)%Z -> 0 <= r -> (0 <= Qfloor (inject_Z total * r))%Z.
Proof.
  intros Ht Hr. apply Qfloor_nonneg.
  apply Qmult_le_0_compat; [|exact Hr].
  change 0 with (inject_Z 0). rewrite <- Zle_Qle. exact Ht.
Qed.

Lemma two_floors_le (total : Z) (a b : Q) :
  (0 <= total)%Z -> 0 <= a -> 0 <= b -> a + b <= 1 ->
  (Qfloor (inject_Z total * a) + Qfloor (inject_Z total * b) <= total)%Z.
Proof.
  intros Ht Ha Hb Hab.
  assert (Ht' : 0 <= inject_Z total)
    by (change 0 with (inject_Z 0); rewrite <- Zle_Qle; exact Ht).
  pose proof (Qfloor_le (inject_Z total * a)) as Fa.
  pose proof (Qfloor_le (inject_Z total * b)) as Fb.
  rewrite Zle_Qle, inject_Z_plus.
  assert (Hs : inject_Z total * a + inject_Z total * b <= inject_Z total).
  { assert (Hp : 0 <= inject_Z total * (1 - (a + b)))
      by (apply Qmult_le_0_compat; lra).
    lra. }
  lra.
Qed.

Lemma layer_sizes (cfg : SteamMapConfig) (total : Z) :
  valid_ratios cfg -> (0 <= total)%Z ->
  n_core cfg total = Qfloor (inject_Z total * CORE_RATIO cfg) /\
  n_mid cfg total = Qfloor (inject_Z total * MID_RATIO cfg) /\
  (0 <= n_core cfg total)%Z /\ (0 <= n_mid cfg total)%Z /\
  (0 <= n_outer cfg total)%Z.
Proof.
  intros (Hc & Hm & Ho & Hsum) Ht.
  assert (Ht' : 0 <= inject_Z total)
    by (change 0 with (inject_Z 0); rewrite <- Zle_Qle; exact Ht).
  assert (Ec : n_core cfg total = Qfloor (inject_Z total * CORE_RATIO cfg)).
  { unfold n_core. apply int_of_float_nonneg.
    apply Qmult_le_0_compat; assumption. }
  assert (Em : n_mid cfg total = Qfloor (inject_Z total * MID_RATIO cfg)).
  { unfold n_mid. apply int_of_float_nonneg.
    apply Qmult_le_0_compat; assumption. }
  repeat split; try assumption.
  - rewrite Ec. apply scaled_floor_nonneg; assumption.
  - rewrite Em. apply scaled_floor_nonneg; assumption.
  - unfold n_outer. rewrite Ec, Em.
    assert (Hle : CORE_RATIO cfg + MID_RATIO cfg <= 1) by lra.
    pose proof (two_floors_le Ht Hc Hm Hle). lia.
Qed.

(** ** The jitter loop *)

(** The number of coordinates held by a list of arrays. *)
Definition npoints (arrays : list (list float64)) : nat :=
  List.length (List.concat arrays).

(** Row [c] with [total] points to place adds exactly [k] latitudes and
    [k] longitudes, whatever was drawn before, and raises nothing. *)
Definition contributes {np : NumPy} (cfg : SteamMapConfig) (c : City)
    (total : Z) (k : nat) : Prop :=
  forall (acc : Arrays) (g : rng),
  exists (acc' : Arrays) (g' : rng),
    city_points cfg c total acc g = Ok (acc', g') /\
    npoints (fst acc') = (npoints (fst acc) + k)%nat /\
    npoints (snd acc') = (npoints (snd acc) + k)%nat.

Section LoopFacts.

Context {np : NumPy}.

Lemma npoints_snoc (arrays : list (list float64)) (a : list float64) :
  npoints (arrays ++ [a]) = (npoints arrays + List.length a)%nat.
Proof.
  unfold npoints. rewrite concat_app. simpl.
  rewrite app_nil_r, length_app. reflexivity.
Qed.

Lemma draws_length (loc : float64) (scale : Q) (n : nat) (g : rng) :
  List.length (fst (draws loc scale n g)) = n.
Proof.
  revert g. induction n as [|n IH]; intros g; simpl; [reflexivity|].
  destruct (normal loc scale g) as [x g1].
  specialize (IH g1). destruct (draws loc scale n g1) as [xs g2].
  simpl in *. rewrite IH. reflexivity.
Qed.

Lemma np_random_normal_ok (loc : float64) (scale : Q) (size : Z) (g : rng) :
  0 <= scale ->
  exists a g', np_random_normal loc scale size g = Ok (a, g') /\
               List.length a = Z.to_nat size.
Proof.
  intros H. unfold np_random_normal.
  assert (E : Qltb scale 0 = false) by (apply Qltb_false; exact H).
  rewrite E.
  pose proof (draws_length loc scale (Z.to_nat size) g) as L.
  destruct (draws loc scale (Z.to_nat size) g) as [a g'].
  exists a, g'. split; [reflexivity|exact L].
Qed.

Lemma np_random_normal_raise (loc : float64) (scale : Q) (size : Z)
    (g : rng) (e : exn) :
  np_random_normal loc scale size g = Raise e -> e = ValueError msg_scale.
Proof.
  unfold np_random_normal. destruct (Qltb scale 0); intros H.
  - injection H as <-. reflexivity.
  - discriminate H.
Qed.

Lemma layer_skip (c : City) (jitter : Q) (n : Z) (acc : Arrays) (g : rng) :
  (n <= 0)%Z -> layer c jitter n acc g = Ok (acc, g).
Proof.
  intros H. unfold layer.
  assert (E : (n >? 0)%Z = false) by lia. rewrite E. reflexivity.
Qed.

Lemma layer_ok (c : City) (jitter : Q) (n : Z) (acc : Arrays) (g : rng) :
  0 <= jitter ->
  exists acc' g', layer c jitter n acc g = Ok (acc', g') /\
    npoints (fst acc') = (npoints (fst acc) + Z.to_nat n)%nat /\
    npoints (snd acc') = (npoints (snd acc) + Z.to_nat n)%nat.
Proof.
  intros Hj. destruct (Z.leb_spec n 0) as [Hn|Hn].
  - exists acc, g. rewrite (layer_skip c jitter acc g Hn).
    replace (Z.to_nat n) with 0%nat by lia.
    rewrite !Nat.add_0_r. auto.
  - unfold layer. assert (E : (n >? 0)%Z = true) by lia. rewrite E.
    unfold bind.
    destruct (np_random_normal_ok (lat c) n g Hj) as (la & g1 & E1 & L1).
    rewrite E1.
    destruct (np_random_normal_ok (lng c) n g1 Hj) as (lo & g2 & E2 & L2).
    rewrite E2. exists (fst acc ++ [la], snd acc ++ [lo]), g2.
    unfold ret. simpl. rewrite !npoints_snoc, L1, L2. auto.
Qed.

(** What a layer that returned has done to [lats]. *)
Lemma layer_inv (c : City) (jitter : Q) (n : Z) (acc acc' : Arrays)
    (g g' : rng) :
  layer c jitter n acc g = Ok (acc', g') ->
  ((n <= 0)%Z /\ acc' = acc /\ g' = g) \/
  ((0 < n)%Z /\ exists a, fst acc' = fst acc ++ [a]).
Proof.
  unfold layer. destruct (Z.gtb_spec n 0) as [Hn|Hn].
  - unfold bind.
    destruct (np_random_normal (lat c) jitter n g) as [[la g1]|e];
      [|discriminate].
    destruct (np_random_normal (lng c) jitter n g1) as [[lo g2]|e];
      [|discriminate].
    unfold ret. intros H. injection H as <- <-.
    right. split; [exact Hn|]. exists la. reflexivity.
  - unfold ret. intros H. injection H as <- <-. left. auto.
Qed.

Lemma layer_raise (c : City) (jitter : Q) (n : Z) (acc : Arrays)
    (g : rng) (e : exn) :
  layer c jitter n acc g = Raise e -> e = ValueError msg_scale.
Proof.
  unfold layer. destruct (n >? 0)%Z; [|discriminate].
  unfold bind.
  destruct (np_random_normal (lat c) jitter n g) as [[la g1]|e1] eqn:E1.
  - destruct (np_random_normal (lng c) jitter n g1) as [[lo g2]|e2] eqn:E2.
    + discriminate.
    + intros H. injection H as <-. eapply np_random_normal_raise. exact E2.
  - intros H. injection H as <-. eapply np_random_normal_raise. exact E1.
Qed.

Lemma layer_keeps (c : City) (jitter : Q) (n : Z) (acc acc' : Arrays)
    (g g' : rng) :
  layer c jitter n acc g = Ok (acc', g') ->
  fst acc' = [] -> fst acc = [] /\ (n <= 0)%Z.
Proof.
  intros H E. destruct (layer_inv _ _ _ _ _ H) as [(Hn & -> & _)|(Hn & a & Ea)].
  - auto.
  - rewrite Ea in E. destruct (fst acc); discriminate E.
Qed.

End LoopFacts.

Section CityFacts.

Context {np : NumPy}.

Lemma city_points_skip (cfg : SteamMapConfig) (c : City) (total : Z)
    (acc : Arrays) (g : rng) :
  (total <= 0)%Z -> city_points cfg c total acc g = Ok (acc, g).
Proof.
  intros H. unfold city_points.
  assert (E : (total <=? 0)%Z = true) by lia. rewrite E. reflexivity.
Qed.

Lemma city_points_raise (cfg : SteamMapConfig) (c : City) (total : Z)
    (acc : Arrays) (g : rng) (e : exn) :
  city_points cfg c total acc g = Raise e -> e = ValueError msg_scale.
Proof.
  unfold city_points. destruct (total <=? 0)%Z; [discriminate|].
  unfold bind.
  destruct (layer c (CORE_JITTER cfg) (n_core cfg total) acc g)
    as [[a1 g1]|e1] eqn:E1.
  - destruct (layer c (MID_JITTER cfg) (n_mid cfg total) a1 g1)
      as [[a2 g2]|e2] eqn:E2.
    + apply layer_raise.
    + intros H. injection H as <-. eapply layer_raise. exact E2.
  - intros H. injection H as <-. eapply layer_raise. exact E1.
Qed.

(** A row with a positive [total] leaves at least one array in [lats]:
    the three sizes add up to [total], so one of them is positive. *)
Lemma city_points_keeps (cfg : SteamMapConfig) (c : City) (total : Z)
    (acc acc' : Arrays) (g g' : rng) :
  city_points cfg c total acc g = Ok (acc', g') ->
  fst acc' = [] -> fst acc = [] /\ (total <= 0)%Z.
Proof.
  unfold city_points. destruct (Z.leb_spec total 0) as [Ht|Ht].
  - unfold ret. intros H E. injection H as <- <-. auto.
  - unfold bind.
    destruct (layer c (CORE_JITTER cfg) (n_core cfg total) acc g)
      as [[a1 g1]|e1] eqn:E1; [|discriminate].
    destruct (layer c (MID_JITTER cfg) (n_mid cfg total) a1 g1)
      as [[a2 g2]|e2] eqn:E2; [|discriminate].
    intros E3 E.
    destruct (layer_keeps _ _ _ _ _ E3 E) as [N2 H3].
    destruct (layer_keeps _ _ _ _ _ E2 N2) as [N1 H2].
    destruct (layer_keeps _ _ _ _ _ E1 N1) as [N0 H1].
    unfold n_outer in H3. lia.
Qed.

Lemma city_points_ok (cfg : SteamMapConfig) (c : City) (total : Z) :
  valid_jitters cfg -> (0 < total)%Z ->
  contributes cfg c total
    (Z.to_nat (n_core cfg total) + Z.to_nat (n_mid cfg total)
     + Z.to_nat (n_outer cfg total)).
Proof.
  intros (Jc & Jm & Jo) Ht acc g. unfold city_points.
  assert (E : (total <=? 0)%Z = false) by lia. rewrite E. unfold bind.
  destruct (layer_ok c (n_core cfg total) acc g Jc)
    as (a1 & g1 & E1 & L1 & R1). rewrite E1.
  destruct (layer_ok c (n_mid cfg total) a1 g1 Jm)
    as (a2 & g2 & E2 & L2 & R2). rewrite E2.
  destruct (layer_ok c (n_outer cfg total) a2 g2 Jo)
    as (a3 & g3 & E3 & L3 & R3).
  exists a3, g3. split; [exact E3|]. split; lia.
Qed.

(** With valid ratios a row contributes exactly its [total]. *)
Lemma city_points_total (cfg : SteamMapConfig) (c : City) (total : Z) :
  valid_ratios cfg -> valid_jitters cfg ->
  contributes cfg c total (Z.to_nat total).
Proof.
  intros Hr Hj. destruct (Z.leb_spec total 0) as [Ht|Ht].
  - intros acc g. exists acc, g.
    rewrite (city_points_skip cfg c acc g Ht).
    replace (Z.to_nat total) with 0%nat by lia.
    rewrite !Nat.add_0_r. auto.
  - assert (H0 : (0 <= total)%Z) by lia.
    destruct (layer_sizes Hr H0) as (_ & _ & Pc & Pm & Po).
    replace (Z.to_nat total)
      with (Z.to_nat (n_core cfg total) + Z.to_nat (n_mid cfg total)
            + Z.to_nat (n_outer cfg total))%nat
      by (unfold n_outer in *; lia).
    apply city_points_ok; assumption.
Qed.

Lemma iterrows_skip (cfg : SteamMapConfig) (rows : list (City * Z))
    (acc : Arrays) (g : rng) :
  Forall (fun n => (n <= 0)%Z) (map snd rows) ->
  iterrows cfg rows acc g = Ok (acc, g).
Proof.
  induction rows as [|[c total] rest IH]; intros H; simpl.
  - reflexivity.
  - simpl in H. inversion H as [|? ? Ht Hrest]; subst.
    unfold bind. rewrite (city_points_skip cfg c acc g Ht).
    apply IH. exact Hrest.
Qed.

Lemma iterrows_keeps (cfg : SteamMapConfig) (rows : list (City * Z))
    (acc acc' : Arrays) (g g' : rng) :
  iterrows cfg rows acc g = Ok (acc', g') ->
  fst acc' = [] ->
  fst acc = [] /\ Forall (fun n => (n <= 0)%Z) (map snd rows).
Proof.
  revert acc g. induction rows as [|[c total] rest IH]; intros acc g; simpl.
  - unfold ret. intros H E. injection H as <- <-. auto.
  - unfold bind.
    destruct (city_points cfg c total acc g) as [[a1 g1]|e1] eqn:E1;
      [|discriminate].
    intros H E. destruct (IH _ _ H E) as [N1 Hrest].
    destruct (city_points_keeps _ _ _ _ _ E1 N1) as [N0 Ht].
    split; [exact N0|]. constructor; assumption.
Qed.

Lemma iterrows_raise (cfg : SteamMapConfig) (rows : list (City * Z))
    (acc : Arrays) (g : rng) (e : exn) :
  iterrows cfg rows acc g = Raise e -> e = ValueError msg_scale.
Proof.
  revert acc g. induction rows as [|[c total] rest IH]; intros acc g; simpl.
  - discriminate.
  - unfold bind.
    destruct (city_points cfg c total acc g) as [[a1 g1]|e1] eqn:E1.
    + apply IH.
    + intros H. injection H as <-. eapply city_points_raise. exact E1.
Qed.

Lemma iterrows_ok (cfg : SteamMapConfig) (rows : list (City * Z))
    (acc : Arrays) (g : rng) :
  valid_jitters cfg ->
  exists acc' g', iterrows cfg rows acc g = Ok (acc', g').
Proof.
  intros Hj. revert acc g.
  induction rows as [|[c total] rest IH]; intros acc g; simpl.
  - exists acc, g. reflexivity.
  - unfold bind. destruct (Z.leb_spec total 0) as [Ht|Ht].
    + rewrite (city_points_skip cfg c acc g Ht). apply IH.
    + destruct (city_points_ok c Hj Ht acc g) as (a1 & g1 & E1 & _).
      rewrite E1. apply IH.
Qed.

End CityFacts.

(** ** Determinism *)

Section Determinism.

Context {np : NumPy}.

(** The loop starts from the state [np.random.seed(42)] installs, the
    sample from a generator of its own: the state found on entry is never
    read. *)
Lemma generate_reseeds (cfg : SteamMapConfig) (rows : list (City * Z))
    (g g' : rng) :
  generate cfg rows g = generate cfg rows g'.
Proof.
  unfold generate, bind, np_random_seed. reflexivity.
Qed.

(** C1.  Determinism: for a fixed table, a fixed configuration and the
    fixed seed 42 of lines 146 and 187, two runs give the same outcome,
    whatever state the global generator was left in before each of them:
    the same exception, or the same points, as many and in the same
    order (and the same generator state afterwards). *)
Theorem point_cloud_deterministic (cfg : SteamMapConfig)
    (merged : list City) (g g' : rng) :
  point_cloud cfg merged g = point_cloud cfg merged g'.
Proof.
  unfold point_cloud.
  destruct (num_points_column cfg merged) as [nums|e].
  - apply generate_reseeds.
  - unfold raise. reflexivity.
Qed.

End Determinism.

(** ** Budget conservation *)



(** ** The point count of one row *)

(** The count lines 128-136 give a finite value [d] of [city_traffic_log]. *)
Definition budget (cfg : SteamMapConfig) (d : Q) : Z :=
  let x := d * POINT_SCALE cfg in
  let n := Qfloor (if Qltb x 0 then 0 else x) in
  Z.min (if (n =? 0)%Z && Qltb 0 d then 1%Z else n) (MAX_POINTS_PER_CITY cfg).

Lemma num_points_of_Fin (cfg : SteamMapConfig) (d : Q) :
  num_points_of cfg (Fin d) = Ok (budget cfg d).
Proof.
  unfold num_points_of, num_points_float, budget. simpl fmul.
  rewrite clip_lower_Fin. cbn [ffloor astype_int]. rewrite Qfloor_Z.
  reflexivity.
Qed.

Lemma num_points_of_le_cap (cfg : SteamMapConfig) (x : float64) (n : Z) :
  num_points_of cfg x = Ok n -> (n <= MAX_POINTS_PER_CITY cfg)%Z.
Proof.
  unfold num_points_of.
  destruct (astype_int (ffloor (num_points_float cfg x))) as [m|e];
    [|discriminate].
  intros H. injection H as <-. apply Z.le_min_r.
Qed.

Lemma num_points_of_raise (cfg : SteamMapConfig) (x : float64) (e : exn) :
  num_points_of cfg x = Raise e -> e = ValueError msg_non_finite.
Proof.
  unfold num_points_of.
  destruct (ffloor (num_points_float cfg x)); simpl; intros H;
    try (injection H as <-; reflexivity).
  discriminate H.
Qed.

Lemma budget_zero (cfg : SteamMapConfig) (d : Q) :
  d == 0 -> budget cfg d = Z.min 0 (MAX_POINTS_PER_CITY cfg).
Proof.
  intros Hd. unfold budget.
  assert (E0 : Qltb (d * POINT_SCALE cfg) 0 = false)
    by (apply Qltb_false; rewrite Hd; lra).
  assert (E1 : Qltb 0 d = false) by (apply Qltb_false; lra).
  rewrite E0, E1, andb_false_r.
  assert (F : Qfloor (d * POINT_SCALE cfg) = 0%Z).
  { rewrite <- (Qfloor_Z 0). apply Qfloor_comp. rewrite Hd.
    change (inject_Z 0) with 0. ring. }
  rewrite F. reflexivity.
Qed.

(** For a positive value the count is the floor, but at least one, and at
    most the cap. *)
Lemma budget_pos (cfg : SteamMapConfig) (d : Q) :
  0 < d ->
  budget cfg d =
  Z.min (Z.max 1 (Qfloor (d * POINT_SCALE cfg))) (MAX_POINTS_PER_CITY cfg).
Proof.
  intros Hd. unfold budget.
  assert (E1 : Qltb 0 d = true) by (apply Qltb_true; exact Hd).
  rewrite E1, andb_true_r. f_equal.
  destruct (Qltb (d * POINT_SCALE cfg) 0) eqn:E0.
  - apply Qltb_true in E0.
    assert (F : (Qfloor (d * POINT_SCALE cfg) <= 0)%Z).
    { rewrite <- (Qfloor_Z 0). apply Qfloor_resp_le.
      change (inject_Z 0) with 0. lra. }
    rewrite Z.max_l by lia. reflexivity.
  - apply Qltb_false in E0.
    pose proof (Qfloor_nonneg E0) as F.
    destruct (Z.eqb_spec (Qfloor (d * POINT_SCALE cfg)) 0) as [Z0|Z0]; lia.
Qed.

Lemma budget_nonpos (cfg : SteamMapConfig) (d : Q) :
  d <= 0 -> 0 <= POINT_SCALE cfg ->
  budget cfg d = Z.min 0 (MAX_POINTS_PER_CITY cfg).
Proof.
  intros Hd Hs. unfold budget.
  assert (E1 : Qltb 0 d = false) by (apply Qltb_false; exact Hd).
  rewrite E1, andb_false_r.
  assert (Hx : d * POINT_SCALE cfg <= 0).
  { assert (0 <= (- d) * POINT_SCALE cfg)
      by (apply Qmult_le_0_compat; lra). lra. }
  destruct (Qltb (d * POINT_SCALE cfg) 0) eqn:E0.
  - reflexivity.
  - apply Qltb_false in E0.
    assert (F : Qfloor (d * POINT_SCALE cfg) = 0%Z).
    { rewrite <- (Qfloor_Z 0). apply Qfloor_comp.
      change (inject_Z 0) with 0. lra. }
    rewrite F. reflexivity.
Qed.


(** ** The column of point counts, and the caps *)

Section Caps.

Context {np : NumPy}.

Lemma num_points_rows_length (cfg : SteamMapConfig) (merged rows : list City)
    (nums : list Z) :
  num_points_rows cfg merged rows = Ok nums ->
  List.length nums = List.length rows.
Proof.
  revert nums. induction rows as [|c rest IH]; intros nums; simpl.
  - intros H. injection H as <-. reflexivity.
  - destruct (num_points cfg merged c) as [n|e]; [|discriminate].
    destruct (num_points_rows cfg merged rest) as [ns|e]; [|discriminate].
    intros H. injection H as <-. simpl. rewrite (IH ns eq_refl). reflexivity.
Qed.

Lemma num_points_rows_raise (cfg : SteamMapConfig) (merged rows : list City)
    (e : exn) :
  num_points_rows cfg merged rows = Raise e -> e = ValueError msg_non_finite.
Proof.
  induction rows as [|c rest IH]; simpl.
  - discriminate.
  - destruct (num_points cfg merged c) as [n|e1] eqn:E1.
    + destruct (num_points_rows cfg merged rest) as [ns|e2].
      * discriminate.
      * intros H. injection H as <-. apply IH. reflexivity.
    + intros H. injection H as <-. eapply num_points_of_raise. exact E1.
Qed.

(** The column holds the count of every kept row, in order. *)
Lemma num_points_rows_Forall2 (cfg : SteamMapConfig)
    (merged rows : list City) (nums : list Z) :
  num_points_rows cfg merged rows = Ok nums ->
  Forall2 (fun c n => num_points cfg merged c = Ok n) rows nums.
Proof.
  revert nums. induction rows as [|c rest IH]; intros nums; simpl.
  - intros H. injection H as <-. constructor.
  - destruct (num_points cfg merged c) as [n|e] eqn:E1; [|discriminate].
    destruct (num_points_rows cfg merged rest) as [ns|e]; [|discriminate].
    intros H. injection H as <-. constructor; [exact E1|].
    apply IH. reflexivity.
Qed.

Lemma num_points_rows_ok (cfg : SteamMapConfig) (merged rows : list City) :
  (forall c, In c rows -> exists n, num_points cfg merged c = Ok n) ->
  exists nums, num_points_rows cfg merged rows = Ok nums.
Proof.
  induction rows as [|c rest IH]; intros H; simpl.
  - exists []. reflexivity.
  - destruct (H c (or_introl eq_refl)) as [n E]. rewrite E.
    destruct IH as [ns Ens].
    { intros d Hd. apply H. right. exact Hd. }
    rewrite Ens. exists (n :: ns). reflexivity.
Qed.

Lemma take_length {A : Type} (idx : list nat) (l : list A) :
  (List.length (take idx l) <= List.length idx)%nat.
Proof.
  unfold take. induction idx as [|i idx IH]; simpl; [lia|].
  rewrite length_app. destruct (nth_error l i); simpl; lia.
Qed.

Lemma sample_length {A : Type} (l sampled : list A) (n s : Z) :
  sample l n s = Ok sampled -> (Z.of_nat (List.length sampled) <= n)%Z.
Proof.
  unfold sample. destruct (Z.ltb_spec n 0) as [Hn|Hn]; [discriminate|].
  destruct (Z.of_nat (List.length l) <? n)%Z; [discriminate|].
  intros H. injection H as <-.
  pose proof (take_length
    (firstn (Z.to_nat n) (permutation (seed_state s) (List.length l))) l) as T.
  pose proof (firstn_le_length (Z.to_nat n)
    (permutation (seed_state s) (List.length l))) as F.
  lia.
Qed.

Lemma sample_raise {A : Type} (l : list A) (n s : Z) (e : exn) :
  sample l n s = Raise e ->
  e = ValueError msg_negative_rows \/ e = ValueError msg_larger_sample.
Proof.
  unfold sample. destruct (n <? 0)%Z.
  - intros H. injection H as <-. left. reflexivity.
  - destruct (Z.of_nat (List.length l) <? n)%Z.
    + intros H. injection H as <-. right. reflexivity.
    + discriminate.
Qed.

Lemma generate_length (cfg : SteamMapConfig) (rows : list (City * Z))
    (g g' : rng) (pts : list Point) :
  generate cfg rows g = Ok (pts, g') ->
  (Z.of_nat (List.length pts) <= MAX_TOTAL_POINTS cfg)%Z.
Proof.
  unfold generate, bind, np_random_seed.
  destruct (iterrows cfg rows ([], []) (seed_state 42)) as [[arrays g1]|e];
    [|discriminate].
  destruct (fst arrays) as [|a rest]; [discriminate|].
  set (points := combine _ _).
  destruct (Z.gtb_spec (Z.of_nat (List.length points)) (MAX_TOTAL_POINTS cfg))
    as [Hgt|Hle].
  - destruct (sample points (MAX_TOTAL_POINTS cfg) 42) as [sampled|e] eqn:Es;
      [|discriminate].
    unfold ret. intros H. injection H as <- <-.
    eapply sample_length. exact Es.
  - unfold ret. intros H. injection H as <- <-. exact Hle.
Qed.

(** C3.  Caps: the point count of every row is at most
    [MAX_POINTS_PER_CITY], and the list of points a run returns, after the
    optional down-sampling, has at most [MAX_TOTAL_POINTS] entries. *)
Theorem caps_respected (cfg : SteamMapConfig) (merged : list City) :
  (forall (c : City) (n : Z),
     num_points cfg merged c = Ok n -> (n <= MAX_POINTS_PER_CITY cfg)%Z) /\
  (forall (nums : list Z),
     num_points_column cfg merged = Ok nums ->
     Forall (fun n => (n <= MAX_POINTS_PER_CITY cfg)%Z) nums) /\
  (forall (g g' : rng) (pts : list Point),
     point_cloud cfg merged g = Ok (pts, g') ->
     (Z.of_nat (List.length pts) <= MAX_TOTAL_POINTS cfg)%Z).
Proof.
  split; [|split].
  - intros c n H. eapply num_points_of_le_cap. exact H.
  - intros nums H. apply num_points_rows_Forall2 in H.
    induction H as [|c n rows ns Hc _ IH]; constructor.
    + eapply num_points_of_le_cap. exact Hc.
    + exact IH.
  - intros g g' pts. unfold point_cloud.
    destruct (num_points_column cfg merged) as [nums|e]; [|discriminate].
    apply generate_length.
Qed.

End Caps.

(** ** The order of float values, and the column maximum *)

Ltac float_cases :=
  repeat match goal with
         | x : float64 |- _ => destruct x
         end;
  simpl in *; try reflexivity; try discriminate.

Lemma fltb_irrefl (x : float64) : fltb x x = false.
Proof.
  destruct x; simpl; try reflexivity. apply Qltb_false. apply Qle_refl.
Qed.

Lemma fltb_asym (x y : float64) : fltb x y = true -> fltb y x = false.
Proof.
  float_cases. intros H. apply Qltb_true in H. apply Qltb_false.
  apply Qlt_le_weak. exact H.
Qed.

(** [z <= y] and [y <= x] give [z <= x], NaN apart. *)
Lemma fltb_false_trans (x y z : float64) :
  isnan y = false ->
  fltb x y = false -> fltb y z = false -> fltb x z = false.
Proof.
  float_cases. intros _ H1 H2.
  apply Qltb_false in H1. apply Qltb_false in H2. apply Qltb_false.
  eapply Qle_trans; eassumption.
Qed.

Lemma fmax_cases (x y : float64) : fmax x y = x \/ fmax x y = y.
Proof. unfold fmax. destruct (fltb x y); auto. Qed.

Lemma fmax_not_nan (x y : float64) :
  isnan x = false -> isnan y = false -> isnan (fmax x y) = false.
Proof. intros Hx Hy. destruct (fmax_cases x y) as [-> | ->]; assumption. Qed.

Lemma fmax_ge_l (x y : float64) : fltb (fmax x y) x = false.
Proof.
  unfold fmax. destruct (fltb x y) eqn:E.
  - apply fltb_asym. exact E.
  - apply fltb_irrefl.
Qed.

Lemma fmax_ge_r (x y : float64) : fltb (fmax x y) y = false.
Proof.
  unfold fmax. destruct (fltb x y) eqn:E.
  - apply fltb_irrefl.
  - exact E.
Qed.

Lemma fold_fmax_In (xs : list float64) (x : float64) :
  In (fold_left fmax xs x) (x :: xs).
Proof.
  revert x. induction xs as [|a xs IH]; intros x; simpl.
  - left. reflexivity.
  - destruct (IH (fmax x a)) as [E|Hin].
    + rewrite <- E. destruct (fmax_cases x a) as [F|F]; rewrite F; auto.
    + right. right. exact Hin.
Qed.

Lemma fold_fmax_not_nan (xs : list float64) (x : float64) :
  isnan x = false -> Forall (fun y => isnan y = false) xs ->
  isnan (fold_left fmax xs x) = false.
Proof.
  revert x. induction xs as [|a xs IH]; intros x Hx Hxs; simpl.
  - exact Hx.
  - inversion Hxs as [|? ? Ha Hrest]; subst.
    apply IH; [apply fmax_not_nan; assumption|exact Hrest].
Qed.

Lemma fold_fmax_upper (xs : list float64) (x y : float64) :
  isnan x = false -> Forall (fun z => isnan z = false) xs ->
  In y (x :: xs) -> fltb (fold_left fmax xs x) y = false.
Proof.
  revert x y. induction xs as [|a xs IH]; intros x y Hx Hxs Hy; simpl.
  - destruct Hy as [<-|[]]. apply fltb_irrefl.
  - inversion Hxs as [|? ? Ha Hrest]; subst.
    assert (Hm : isnan (fmax x a) = false) by (apply fmax_not_nan; assumption).
    destruct Hy as [<-|[<-|Hy]].
    + apply fltb_false_trans with (y := fmax x a); [exact Hm| |apply fmax_ge_l].
      apply IH; [exact Hm|exact Hrest|left; reflexivity].
    + apply fltb_false_trans with (y := fmax x a); [exact Hm| |apply fmax_ge_r].
      apply IH; [exact Hm|exact Hrest|left; reflexivity].
    + apply IH; [exact Hm|exact Hrest|right; exact Hy].
Qed.

Lemma filter_not_nan (l : list float64) :
  Forall (fun z => isnan z = false)
         (filter (fun x => negb (isnan x)) l).
Proof.
  apply Forall_forall. intros z Hz. apply filter_In in Hz.
  destruct Hz as [_ Hz]. apply negb_true_iff. exact Hz.
Qed.

(** The maximum is one of the values, unless every value is NaN. *)
Lemma nanmax_In (l : list float64) : nanmax l = NaN \/ In (nanmax l) l.
Proof.
  unfold nanmax.
  destruct (filter (fun x => negb (isnan x)) l) as [|x xs] eqn:E.
  - left. reflexivity.
  - right. pose proof (fold_fmax_In xs x) as H. rewrite <- E in H.
    apply filter_In in H. apply H.
Qed.

(** No value that is not NaN is above the maximum, and then the maximum is
    not NaN either. *)
Lemma nanmax_upper (l : list float64) (y : float64) :
  In y l -> isnan y = false ->
  isnan (nanmax l) = false /\ fltb (nanmax l) y = false.
Proof.
  intros Hy Hn. unfold nanmax.
  assert (Hin : In y (filter (fun x => negb (isnan x)) l)).
  { apply filter_In. split; [exact Hy|]. rewrite Hn. reflexivity. }
  pose proof (filter_not_nan l) as Hall.
  destruct (filter (fun x => negb (isnan x)) l) as [|x xs]; [destruct Hin|].
  inversion Hall as [|? ? Hx Hxs]; subst. split.
  - apply fold_fmax_not_nan; assumption.
  - apply fold_fmax_upper; assumption.
Qed.

(** ** The normalised logarithm of one row *)



Lemma fdiv_Fin_pos (a b : Q) : 0 < b -> fdiv (Fin a) (Fin b) = Fin (a / b).
Proof.
  intros Hb. simpl.
  assert (E : Qeq_bool b 0 = false) by (apply Qeq_bool_false; lra).
  rewrite E. reflexivity.
Qed.

Section LogFacts.

Context {np : NumPy}.

(** The logarithm of a cleaned traffic is NaN, minus infinity or finite. *)
Lemma log_raw_cases (merged : list City) (c : City) :
  city_traffic_log_raw merged c = NaN \/
  city_traffic_log_raw merged c = NInf \/
  exists q, city_traffic_tb merged c = Fin q /\
            city_traffic_log_raw merged c = Fin (ln1p q).
Proof.
  unfold city_traffic_log_raw.
  destruct (city_traffic_tb_Fin merged c) as [q Eq]. rewrite Eq.
  unfold log1p. destruct (Qltb q (-1)); [left; reflexivity|].
  destruct (Qeq_bool q (-1)); [right; left; reflexivity|].
  right. right. exists q. split; reflexivity.
Qed.

Lemma max_log_attained (merged : list City) :
  isnan (max_log merged) = false ->
  exists c, In c (kept merged) /\
            city_traffic_log_raw merged c = max_log merged.
Proof.
  intros Hn. unfold max_log in *.
  destruct (nanmax_In (map (city_traffic_log_raw merged) (kept merged)))
    as [E|Hin].
  - rewrite E in Hn. discriminate Hn.
  - apply in_map_iff in Hin. destruct Hin as (c & Ec & Hc).
    exists c. split; [exact Hc|exact Ec].
Qed.

(** A kept row with a finite logarithm is below a finite maximum. *)
Lemma max_log_ge (merged : list City) (c : City) (L : Q) :
  In c (kept merged) -> city_traffic_log_raw merged c = Fin L ->
  exists m, max_log merged = Fin m /\ L <= m.
Proof.
  intros Hc EL.
  assert (Hin : In (Fin L) (map (city_traffic_log_raw merged) (kept merged))).
  { rewrite <- EL. apply in_map. exact Hc. }
  destruct (nanmax_upper _ _ Hin eq_refl) as [Hn Hup].
  fold (max_log merged) in Hn, Hup.
  destruct (max_log_attained merged Hn) as (c' & _ & Ec').
  destruct (log_raw_cases merged c') as [E|[E|(q & _ & E)]];
    rewrite E in Ec'; rewrite <- Ec' in Hup, Hn; simpl in Hup, Hn;
    try discriminate Hup; try discriminate Hn.
  exists (ln1p q). split; [symmetry; exact Ec'|].
  apply Qltb_false. exact Hup.
Qed.

Hypothesis laws : Log1pLaws np.

(** A row without traffic has the value zero in [city_traffic_log]. *)
Lemma log_zero_traffic (merged : list City) (c : City) (q : Q) :
  city_traffic_tb merged c = Fin q -> q == 0 ->
  exists d, city_traffic_log merged c = Fin d /\ d == 0.
Proof.
  intros Eq Hq. unfold city_traffic_log, city_traffic_log_raw. rewrite Eq.
  rewrite log1p_nonneg_arg by lra.
  pose proof (ln1p_zero laws Hq) as HL.
  destruct (max_log merged) as [| | |m]; simpl gt0; cbv iota.
  - exists (ln1p q). split; [reflexivity|exact HL].
  - exists 0. split; [reflexivity|reflexivity].
  - exists (ln1p q). split; [reflexivity|exact HL].
  - destruct (gt0 (Fin m)) eqn:Em.
    + apply gt0_Fin in Em. rewrite (fdiv_Fin_pos _ Em).
      exists (ln1p q / m). split; [reflexivity|].
      unfold Qdiv. rewrite HL. ring.
    + exists (ln1p q). split; [reflexivity|exact HL].
Qed.

(** A kept row with non-negative traffic, once some row of the table has
    a positive logarithm: the value is [ln1p q / m], between 0 and 1. *)
Lemma log_nonneg_traffic (merged : list City) (c : City) (q m : Q) :
  In c (kept merged) -> city_traffic_tb merged c = Fin q -> 0 <= q ->
  max_log merged = Fin m -> 0 < m ->
  city_traffic_log merged c = Fin (ln1p q / m) /\
  0 <= ln1p q /\ ln1p q <= m.
Proof.
  intros Hc Eq Hq Em Hm.
  assert (EL : city_traffic_log_raw merged c = Fin (ln1p q)).
  { unfold city_traffic_log_raw. rewrite Eq. apply log1p_nonneg_arg.
    exact Hq. }
  destruct (max_log_ge merged c Hc EL) as (m' & Em' & Hle).
  rewrite Em in Em'. injection Em' as <-.
  split; [|split; [apply ln1p_nonneg; assumption|exact Hle]].
  unfold city_traffic_log. rewrite Em, EL.
  assert (G : gt0 (Fin m) = true) by (apply gt0_Fin; exact Hm).
  rewrite G. apply fdiv_Fin_pos. exact Hm.
Qed.

(** A kept row with traffic has a positive value in [city_traffic_log]. *)
Lemma log_pos_traffic (merged : list City) (c : City) (q : Q) :
  In c (kept merged) -> city_traffic_tb merged c = Fin q -> 0 < q ->
  exists m, max_log merged = Fin m /\ 0 < ln1p q /\ ln1p q <= m /\
            city_traffic_log merged c = Fin (ln1p q / m) /\
            0 < ln1p q / m.
Proof.
  intros Hc Eq Hq.
  assert (EL : city_traffic_log_raw merged c = Fin (ln1p q)).
  { unfold city_traffic_log_raw. rewrite Eq. apply log1p_nonneg_arg. lra. }
  destruct (max_log_ge merged c Hc EL) as (m & Em & Hle).
  pose proof (ln1p_pos laws Hq) as HL.
  assert (Hm : 0 < m) by lra.
  destruct (log_nonneg_traffic merged c Hc Eq (Qlt_le_weak _ _ Hq) Em Hm)
    as (Ed & _ & _).
  exists m. repeat split; try assumption.
  apply Qlt_shift_div_l; lra.
Qed.

End LogFacts.

(** ** Rows with and without traffic *)

Section Traffic.

Context {np : NumPy}.

Lemma contributes_skip (cfg : SteamMapConfig) (c : City) (total : Z) :
  (total <= 0)%Z -> contributes cfg c total 0.
Proof.
  intros Ht acc g. exists acc, g.
  rewrite (city_points_skip cfg c acc g Ht), !Nat.add_0_r. auto.
Qed.

Hypothesis laws : Log1pLaws np.

Lemma num_points_zero_traffic (cfg : SteamMapConfig) (merged : list City)
    (c : City) (q : Q) :
  city_traffic_tb merged c = Fin q -> q == 0 ->
  num_points cfg merged c = Ok (Z.min 0 (MAX_POINTS_PER_CITY cfg)).
Proof.
  intros Eq Hq.
  destruct (log_zero_traffic laws merged c Eq Hq) as (d & Ed & Hd).
  unfold num_points. rewrite Ed, num_points_of_Fin, (budget_zero cfg Hd).
  reflexivity.
Qed.

Lemma num_points_pos_traffic (cfg : SteamMapConfig) (merged : list City)
    (c : City) (q : Q) :
  In c (kept merged) -> city_traffic_tb merged c = Fin q -> 0 < q ->
  exists d, city_traffic_log merged c = Fin d /\ 0 < d /\
    num_points cfg merged c =
    Ok (Z.min (Z.max 1 (Qfloor (d * POINT_SCALE cfg)))
              (MAX_POINTS_PER_CITY cfg)).
Proof.
  intros Hc Eq Hq.
  destruct (log_pos_traffic laws merged c Hc Eq Hq)
    as (m & _ & _ & _ & Ed & Hd).
  exists (ln1p q / m). split; [exact Ed|]. split; [exact Hd|].
  unfold num_points. rewrite Ed, num_points_of_Fin, (budget_pos cfg Hd).
  reflexivity.
Qed.

(** A row with negative traffic, when its count exists at all. *)
Lemma num_points_neg_traffic (cfg : SteamMapConfig) (merged : list City)
    (c : City) (q : Q) (n : Z) :
  0 <= POINT_SCALE cfg ->
  city_traffic_tb merged c = Fin q -> q < 0 ->
  num_points cfg merged c = Ok n ->
  n = Z.min 0 (MAX_POINTS_PER_CITY cfg).
Proof.
  intros Hs Eq Hq. unfold num_points, city_traffic_log, city_traffic_log_raw.
  rewrite Eq. unfold log1p.
  destruct (Qltb q (-1)) eqn:E1.
  { destruct (gt0 (max_log merged)); [destruct (max_log merged)|];
      discriminate. }
  destruct (Qeq_bool q (-1)) eqn:E2.
  { assert (Hinf : forall x, x = NInf \/ x = NaN ->
                   num_points_of cfg x = Ok n ->
                   n = Z.min 0 (MAX_POINTS_PER_CITY cfg)).
    { intros x [-> | ->]; [|discriminate].
      unfold num_points_of, num_points_float. simpl fmul. unfold inf_times.
      destruct (Qeq_bool (POINT_SCALE cfg) 0) eqn:E0; [discriminate|].
      assert (P : Qltb 0 (POINT_SCALE cfg) = true).
      { apply Qltb_true. apply Qeq_bool_false in E0. lra. }
      rewrite P. simpl. intros H. injection H as <-. reflexivity. }
    destruct (gt0 (max_log merged)) eqn:G; [|apply Hinf; auto].
    apply Hinf. destruct (max_log merged) as [| | |m]; simpl; auto.
    apply gt0_Fin in G.
    assert (P : Qle_bool 0 m = true) by (apply Qle_bool_iff; lra).
    rewrite P. auto. }
  apply Qltb_false in E1. apply Qeq_bool_false in E2.
  assert (HL : ln1p q <= 0).
  { rewrite <- (ln1p_0 laws). apply (ln1p_mono laws); lra. }
  assert (Hd : forall d, d <= 0 -> num_points_of cfg (Fin d) = Ok n ->
               n = Z.min 0 (MAX_POINTS_PER_CITY cfg)).
  { intros d Hd. rewrite num_points_of_Fin, (budget_nonpos cfg Hd Hs).
    intros H. injection H as <-. reflexivity. }
  destruct (gt0 (max_log merged)) eqn:G; [|apply Hd; exact HL].
  destruct (max_log merged) as [| | |m]; simpl in G; try discriminate G.
  - simpl fdiv. apply Hd. lra.
  - apply (gt0_Fin m) in G. rewrite (fdiv_Fin_pos _ G). apply Hd.
    apply Qle_shift_div_r; lra.
Qed.

(** C10.  A row whose [traffic_tb * pop_weight] is NaN or an infinity:
    lines 113-114 turn the value into 0 before the logarithm, the row gets
    no point and adds nothing to [lats] and [lons], and neither its count
    nor its turn in the loop raises. *)
Theorem non_finite_traffic_is_zero (cfg : SteamMapConfig)
    (merged : list City) (c : City) :
  isfinite (city_traffic_raw merged c) = false ->
  city_traffic_tb merged c = Fin 0 /\
  (exists n, num_points cfg merged c = Ok n /\ (n <= 0)%Z /\
             contributes cfg c n 0).
Proof.
  intros Hnf.
  assert (E : city_traffic_tb merged c = Fin 0).
  { unfold city_traffic_tb. apply clean_non_finite. exact Hnf. }
  split; [exact E|].
  exists (Z.min 0 (MAX_POINTS_PER_CITY cfg)).
  split; [|split].
  - apply (num_points_zero_traffic cfg merged c E). reflexivity.
  - apply Z.le_min_l.
  - apply contributes_skip. apply Z.le_min_l.
Qed.


End Traffic.

(** ** The empty result *)

Section EmptyResult.

Context {np : NumPy}.

Lemma map_snd_combine {A B : Type} (l : list A) (l' : list B) :
  List.length l' = List.length l -> map snd (combine l l') = l'.
Proof.
  revert l'. induction l as [|a l IH]; intros [|b l'] H; simpl in *;
    try reflexivity; try discriminate.
  f_equal. apply IH. lia.
Qed.

Lemma generate_no_points (cfg : SteamMapConfig) (rows : list (City * Z))
    (g : rng) :
  generate cfg rows g = Raise (ValueError msg_no_points) <->
  Forall (fun n => (n <= 0)%Z) (map snd rows).
Proof.
  unfold generate, bind, np_random_seed. split.
  - destruct (iterrows cfg rows ([], []) (seed_state 42))
      as [[arrays g1]|e] eqn:E.
    + destruct (fst arrays) as [|a rest] eqn:Ea.
      * intros _. apply (iterrows_keeps _ _ _ _ E Ea).
      * destruct (Z.of_nat _ >? MAX_TOTAL_POINTS cfg)%Z.
        -- destruct (sample _ (MAX_TOTAL_POINTS cfg) 42) as [s|e] eqn:Es.
           ++ discriminate.
           ++ unfold raise. intros H.
              destruct (sample_raise _ _ _ Es) as [-> | ->]; discriminate H.
        -- discriminate.
    + intros H. apply iterrows_raise in E. subst e. discriminate H.
  - intros H. rewrite (iterrows_skip cfg rows ([], []) (seed_state 42) H).
    reflexivity.
Qed.

(** C7.  The empty result.  A run ends in the exception of line 178 if and
    only if the column of counts exists and gives no row a point; then the
    exception is the outcome of the run, not a list of points.  In
    particular a table whose rows all have zero traffic ends so. *)
Theorem empty_result_raises (cfg : SteamMapConfig) (merged : list City)
    (g : rng) :
  (point_cloud cfg merged g = Raise (ValueError msg_no_points) <->
   exists nums, num_points_column cfg merged = Ok nums /\
                Forall (fun n => (n <= 0)%Z) nums) /\
  (Log1pLaws np ->
   (forall c, In c (kept merged) ->
      exists q, city_traffic_tb merged c = Fin q /\ q == 0) ->
   point_cloud cfg merged g = Raise (ValueError msg_no_points)).
Proof.
  assert (Iff : point_cloud cfg merged g = Raise (ValueError msg_no_points) <->
                exists nums, num_points_column cfg merged = Ok nums /\
                             Forall (fun n => (n <= 0)%Z) nums).
  { unfold point_cloud.
    destruct (num_points_column cfg merged) as [nums|e] eqn:E.
    - rewrite generate_no_points.
      rewrite map_snd_combine
        by (eapply num_points_rows_length; exact E).
      split.
      + intros H. exists nums. auto.
      + intros (nums' & E' & H). apply Ok_inj in E'. subst nums'. exact H.
    - split.
      + unfold raise. intros H. apply num_points_rows_raise in E.
        subst e. discriminate H.
      + intros (nums' & E' & _). discriminate E'. }
  split; [exact Iff|].
  intros laws Hzero. apply Iff.
  destruct (num_points_rows_ok cfg merged (kept merged)) as [nums E].
  { intros c Hc. destruct (Hzero c Hc) as (q & Eq & Hq).
    eexists. apply (num_points_zero_traffic laws cfg merged c Eq Hq). }
  exists nums. split; [exact E|].
  apply num_points_rows_Forall2 in E.
  induction E as [|c n rows ns Hn _ IH]; constructor.
  - destruct (Hzero c (or_introl eq_refl)) as (q & Eq & Hq).
    rewrite (num_points_zero_traffic laws cfg merged c Eq Hq) in Hn.
    apply Ok_inj in Hn. subst n. apply Z.le_min_l.
  - apply IH. intros d Hd. apply Hzero. right. exact Hd.
Qed.

End EmptyResult.

(** ** The normalised density and the largest row *)

Section Normalisation.

Context {np : NumPy}.

Hypothesis laws : Log1pLaws np.

(** A kept row of maximal traffic, in a table of non-negative traffic with
    a positive row: the maximum of the column is its own logarithm, so its
    value in [city_traffic_log] is 1, whatever the logarithm is. *)
Lemma largest_row_count (cfg : SteamMapConfig) (merged : list City)
    (c : City) (q : Q) :
  (forall x r, In x (kept merged) -> city_traffic_tb merged x = Fin r ->
               0 <= r) ->
  (exists x r, In x (kept merged) /\ city_traffic_tb merged x = Fin r /\
               0 < r) ->
  In c (kept merged) -> city_traffic_tb merged c = Fin q ->
  (forall c' q', In c' (kept merged) ->
     city_traffic_tb merged c' = Fin q' -> q' <= q) ->
  (exists d, city_traffic_log merged c = Fin d /\ d == 1) /\
  num_points cfg merged c =
    Ok (Z.min (Z.max 1 (Qfloor (POINT_SCALE cfg)))
              (MAX_POINTS_PER_CITY cfg)).
Proof.
  intros Hnn (c0 & q0 & Hc0 & Eq0 & Hq0) Hc Eq Hmax.
  destruct (log_pos_traffic laws merged c0 Hc0 Eq0 Hq0)
    as (m & Em & HL0 & Hle0 & _ & _).
  assert (Hm : 0 < m) by lra.
  destruct (log_nonneg_traffic laws merged c Hc Eq (Hnn c q Hc Eq) Em Hm)
    as (Ed & HL & HLm).
  (* the maximum is the logarithm of some row, which is below this one *)
  assert (Hn : isnan (max_log merged) = false) by (rewrite Em; reflexivity).
  destruct (max_log_attained merged Hn) as (c' & Hc' & Ec').
  destruct (city_traffic_tb_Fin merged c') as [q' Eq'].
  assert (Hmq : m <= ln1p q).
  { unfold city_traffic_log_raw in Ec'. rewrite Eq', Em in Ec'.
    rewrite log1p_nonneg_arg in Ec' by (apply (Hnn c' q' Hc' Eq')).
    assert (E : ln1p q' = m) by congruence. rewrite <- E.
    apply (ln1p_mono laws).
    - pose proof (Hnn c' q' Hc' Eq'). lra.
    - apply (Hmax c' q' Hc' Eq'). }
  assert (Hone : ln1p q / m == 1).
  { assert (E : ln1p q == m) by lra. rewrite E. field. lra. }
  assert (Hpos : 0 < ln1p q / m) by lra.
  assert (Hfl : Qfloor (ln1p q / m * POINT_SCALE cfg)
                = Qfloor (POINT_SCALE cfg)).
  { apply Qfloor_comp. rewrite Hone. ring. }
  split; [exists (ln1p q / m); split; [exact Ed|exact Hone]|].
  unfold num_points.
  rewrite Ed, num_points_of_Fin, (budget_pos cfg Hpos), Hfl.
  reflexivity.
Qed.


End Normalisation.

(** ** The population weights of a country *)

(** The value of a finite float, 0 for the others. *)
Definition value (x : float64) : Q :=
  match x with Fin q => q | _ => 0 end.






Section Weights.

Context {np : NumPy}.




End Weights.

(** ** More traffic never means fewer points *)

(** The row [c] with another value in the column [traffic_tb]. *)
Definition with_traffic (c : City) (t : float64) : City :=
  {| iso3 := iso3 c; lat := lat c; lng := lng c;
     population := population c; traffic_tb := t |}.

Section Monotone.

Context {np : NumPy}.

Hypothesis laws : Log1pLaws np.

Variables (pre post : list City) (c : City) (t' : float64).

Let B : list City := pre ++ c :: post.
Let c' : City := with_traffic c t'.









End Monotone.

Section MonotoneBudget.

Context {np : NumPy}.

Hypothesis laws : Log1pLaws np.

(** The value of [city_traffic_log] of a kept row with non-negative
    traffic [q], from the maximum [m] of the column. *)
Lemma log_of_kept_row (merged : list City) (x : City) (q m : Q) :
  city_traffic_tb merged x = Fin q -> 0 <= q ->
  max_log merged = Fin m ->
  city_traffic_log merged x
  = Fin (if Qltb 0 m then ln1p q / m else ln1p q).
Proof.
  intros Eq Hq Em. unfold city_traffic_log, city_traffic_log_raw.
  rewrite Eq, Em, (log1p_nonneg_arg Hq). unfold gt0. simpl fltb.
  destruct (Qltb 0 m) eqn:G; [|reflexivity].
  apply fdiv_Fin_pos. apply Qltb_true. exact G.
Qed.


End MonotoneBudget.

(** ** A malformed row is not reported *)

Section Malformed.

Context {np : NumPy}.

Hypothesis laws : Log1pLaws np.

Lemma num_points_nonneg_traffic (cfg : SteamMapConfig) (merged : list City)
    (x : City) (q : Q) :
  In x (kept merged) -> city_traffic_tb merged x = Fin q -> 0 <= q ->
  exists n, num_points cfg merged x = Ok n.
Proof.
  intros Hx Eq Hq. destruct (Qlt_le_dec 0 q) as [Hpos|Hz].
  - destruct (num_points_pos_traffic laws cfg merged x Hx Eq Hpos)
      as (d & _ & _ & En).
    eexists. exact En.
  - eexists. apply (num_points_zero_traffic laws cfg merged x Eq). lra.
Qed.

Lemma generate_outcome (cfg : SteamMapConfig) (rows : list (City * Z))
    (g : rng) :
  valid_jitters cfg -> (0 <= MAX_TOTAL_POINTS cfg)%Z ->
  (exists pts g', generate cfg rows g = Ok (pts, g')) \/
  generate cfg rows g = Raise (ValueError msg_no_points).
Proof.
  intros Hj Hmax. unfold generate, bind, np_random_seed.
  destruct (iterrows_ok rows ([], []) (seed_state 42) Hj)
    as (arrays & g1 & E).
  rewrite E. destruct (fst arrays) as [|a rest]; [right; reflexivity|].
  left. set (points := combine _ _).
  destruct (Z.gtb_spec (Z.of_nat (List.length points)) (MAX_TOTAL_POINTS cfg))
    as [Hgt|Hle].
  - unfold sample.
    assert (E1 : (MAX_TOTAL_POINTS cfg <? 0)%Z = false) by lia.
    assert (E2 : (Z.of_nat (List.length points) <? MAX_TOTAL_POINTS cfg)%Z
                 = false) by lia.
    rewrite E1, E2. unfold ret. eexists. eexists. reflexivity.
  - unfold ret. eexists. eexists. reflexivity.
Qed.

(** C9, as the code has it.  A kept row whose [traffic_tb * pop_weight] is
    NaN or an infinity raises nothing: it gets no point, and when the
    other rows have non-negative traffic the run as a whole returns its
    points, or ends in the exception of line 178 when no row gets a
    point.  There is no exception for a malformed row. *)
Theorem malformed_row_is_skipped (cfg : SteamMapConfig) (merged : list City)
    (c : City) (g : rng) :
  valid_jitters cfg -> (0 <= MAX_TOTAL_POINTS cfg)%Z ->
  In c (kept merged) ->
  isfinite (city_traffic_raw merged c) = false ->
  (forall x q, In x (kept merged) -> x <> c ->
     city_traffic_tb merged x = Fin q -> 0 <= q) ->
  (exists n, num_points cfg merged c = Ok n /\ (n <= 0)%Z) /\
  ((exists pts g', point_cloud cfg merged g = Ok (pts, g')) \/
   point_cloud cfg merged g = Raise (ValueError msg_no_points)).
Proof.
  intros Hj Hmax Hc Hnf Hothers.
  assert (E0 : city_traffic_tb merged c = Fin 0).
  { unfold city_traffic_tb. apply clean_non_finite. exact Hnf. }
  assert (Hall : forall x q, In x (kept merged) ->
                   city_traffic_tb merged x = Fin q -> 0 <= q).
  { intros x q Hx Eq.
    destruct (Qlt_le_dec q 0) as [Hneg|Hge]; [|exact Hge].
    apply (Hothers x q Hx); [|exact Eq].
    intros ->. rewrite E0 in Eq.
    assert (Hq : q = 0) by congruence. rewrite Hq in Hneg.
    discriminate Hneg. }
  split.
  - exists (Z.min 0 (MAX_POINTS_PER_CITY cfg)). split.
    + apply (num_points_zero_traffic laws cfg merged c E0). reflexivity.
    + apply Z.le_min_l.
  - unfold point_cloud.
    destruct (num_points_rows_ok cfg merged (kept merged)) as [nums E].
    { intros x Hx. destruct (city_traffic_tb_Fin merged x) as [q Eq].
      apply (num_points_nonneg_traffic cfg merged x Hx Eq).
      apply (Hall x q Hx Eq). }
    unfold num_points_column. rewrite E.
    apply generate_outcome; assumption.
Qed.

End Malformed.

(** * The model at work *)

(** ** The stand-in library obeys the laws *)

Lemma sim_laws : Log1pLaws Sim.numpy.
Proof.
  constructor; simpl; unfold Sim.ln1p.
  - reflexivity.
  - intros a b Ha Hab.
    apply Qle_shift_div_l; [lra|].
    setoid_replace (2 * a / (2 + a) * (2 + b))
      with (2 * a * (2 + b) / (2 + a)) by (field; lra).
    apply Qle_shift_div_r; [lra|]. lra.
  - intros a Ha. apply Qlt_shift_div_l; lra.
Qed.

(** ** A small table *)

(** Country ABC carries 100 TB over two cities of 80 and 20 inhabitants;
    ZZZ has no traffic; the traffic of XXX is infinite. *)
Definition city_a : City := Sim.mkCity "ABC" 10 20 (Fin 80) (Fin 100).
Definition city_b : City := Sim.mkCity "ABC" 30 40 (Fin 20) (Fin 100).
Definition city_z : City := Sim.mkCity "ZZZ" 50 60 (Fin 5) (Fin 0).
Definition city_x : City := Sim.mkCity "XXX" (-20) 70 (Fin 7) PInf.

Definition table : list City := [city_a; city_b; city_z; city_x].


Definition with_max_total (cfg : SteamMapConfig) (n : Z) : SteamMapConfig :=
  {| POINT_SCALE := POINT_SCALE cfg;
     MAX_POINTS_PER_CITY := MAX_POINTS_PER_CITY cfg;
     MAX_TOTAL_POINTS := n;
     CORE_RATIO := CORE_RATIO cfg; MID_RATIO := MID_RATIO cfg;
     OUTER_RATIO := OUTER_RATIO cfg;
     CORE_JITTER := CORE_JITTER cfg; MID_JITTER := MID_JITTER cfg;
     OUTER_JITTER := OUTER_JITTER cfg |}.

Lemma table_kept : kept table = table.
Proof. vm_compute. reflexivity. Qed.

Lemma table_traffic_nonneg (c : City) (q : Q) :
  In c (kept table) -> city_traffic_tb table c = Fin q -> 0 <= q.
Proof.
  rewrite table_kept. intros Hin E.
  destruct Hin as [<-|[<-|[<-|[<-|[]]]]];
    vm_compute in E; apply (f_equal value) in E; simpl in E; subst q;
    unfold Qle; simpl; lia.
Qed.

Example table_counts :
  map (city_traffic_tb table) table
  = [Fin (8000 # 100); Fin (2000 # 100); Fin (0 # 5); Fin 0] /\
  @num_points_column Sim.numpy config table = Ok [200; 186; 0; 0]%Z.
Proof. split; vm_compute; reflexivity. Qed.

(** ** The theorems on the table *)


Lemma table_x_kept : In city_x (kept table).
Proof. rewrite table_kept. right. right. right. left. reflexivity. Qed.





(** City X, whose traffic is infinite, does not stop the run. *)
Lemma malformed_row_is_skipped_witness :
  city_traffic_raw table city_x = PInf /\
  (exists n, @num_points Sim.numpy config table city_x = Ok n /\ (n <= 0)%Z) /\
  ((exists pts g', @point_cloud Sim.numpy config table 7%Z = Ok (pts, g')) \/
   @point_cloud Sim.numpy config table 7%Z = Raise (ValueError msg_no_points)).
Proof.
  split; [vm_compute; reflexivity|].
  apply (@malformed_row_is_skipped Sim.numpy sim_laws config table city_x 7%Z).
  - exact config_valid_jitters.
  - simpl. lia.
  - exact table_x_kept.
  - vm_compute. reflexivity.
  - intros x q Hx _ Eq. exact (table_traffic_nonneg Hx Eq).
Defined.

Lemma non_finite_traffic_is_zero_witness :
  city_traffic_raw table city_x = PInf /\
  city_traffic_tb table city_x = Fin 0 /\
  exists n, @num_points Sim.numpy config table city_x = Ok n /\ (n <= 0)%Z /\
            @contributes Sim.numpy config city_x n 0.
Proof.
  split; [vm_compute; reflexivity|].
  apply (@non_finite_traffic_is_zero Sim.numpy sim_laws config table city_x).
  vm_compute. reflexivity.
Defined.

(** A table without traffic ends in the exception of line 178. *)
Lemma empty_result_raises_witness :
  @point_cloud Sim.numpy config [city_z] 7%Z
  = Raise (ValueError msg_no_points).
Proof.
  destruct (@empty_result_raises Sim.numpy config [city_z] 7%Z) as [_ H].
  apply H; [exact sim_laws|].
  intros c Hc. assert (K : kept [city_z] = [city_z]) by reflexivity.
  rewrite K in Hc. destruct Hc as [<-|[]].
  exists (0 # 5). split; [vm_compute; reflexivity|reflexivity].
Defined.

(** With [MAX_TOTAL_POINTS = 10] the 386 points of the table are sampled
    down to 10. *)
Lemma caps_respected_witness :
  exists pts g',
    @point_cloud Sim.numpy (with_max_total config 10) table 7%Z
    = Ok (pts, g') /\
    List.length pts = 10%nat /\
    (Z.of_nat (List.length pts) <= 10)%Z.
Proof.
  destruct (@point_cloud Sim.numpy (with_max_total config 10) table 7%Z)
    as [[pts g']|e] eqn:E; [|vm_compute in E; discriminate E].
  exists pts, g'. split; [reflexivity|]. split.
  - vm_compute in E. apply Ok_inj in E.
    apply (f_equal (fun r => List.length (fst r))) in E.
    simpl in E. symmetry. exact E.
  - destruct (@caps_respected Sim.numpy (with_max_total config 10) table)
      as (_ & _ & H).
    exact (H 7%Z g' pts E).
Defined.

(** ** Where the specification and the script part *)


Definition x_and_a : list City := [city_x; city_a].

Section AnyLibrary.

Context {np : NumPy}.

Hypothesis laws : Log1pLaws np.



(** Whatever the logarithm, city X gets no point and city A gets 200, and
    the run over the two returns a list of points. *)
Lemma x_and_a_counts :
  num_points_column config x_and_a = Ok [0; 200]%Z.
Proof.
  assert (K : kept x_and_a = x_and_a) by (vm_compute; reflexivity).
  assert (Ha : In city_a (kept x_and_a))
    by (rewrite K; right; left; reflexivity).
  assert (Ex : city_traffic_tb x_and_a city_x = Fin 0)
    by (vm_compute; reflexivity).
  assert (Ea : city_traffic_tb x_and_a city_a = Fin (100 * (80 / 80)))
    by (vm_compute; reflexivity).
  assert (Nx : num_points config x_and_a city_x = Ok 0%Z).
  { rewrite (num_points_zero_traffic laws config x_and_a city_x Ex);
      reflexivity. }
  assert (Na : num_points config x_and_a city_a = Ok 200%Z).
  { destruct (largest_row_count laws config x_and_a city_a
                (q := 100 * (80 / 80))) as [_ En].
    - rewrite K. intros x r Hin E.
      destruct Hin as [<-|[<-|[]]];
        vm_compute in E; apply (f_equal value) in E; simpl in E; subst r;
        unfold Qle; simpl; lia.
    - exists city_a, (100 * (80 / 80)). split; [exact Ha|].
      split; [exact Ea|reflexivity].
    - exact Ha.
    - exact Ea.
    - rewrite K. intros c' q' Hin E.
      destruct Hin as [<-|[<-|[]]];
        vm_compute in E; apply (f_equal value) in E; simpl in E; subst q';
        unfold Qle; simpl; lia.
    - rewrite En. reflexivity. }
  unfold num_points_column. rewrite K. unfold x_and_a at 2.
  simpl num_points_rows. rewrite Nx, Na. reflexivity.
Qed.

Lemma x_and_a_returns (g : rng) :
  exists pts g', point_cloud config x_and_a g = Ok (pts, g').
Proof.
  unfold point_cloud. rewrite x_and_a_counts.
  assert (Hmax : (0 <= MAX_TOTAL_POINTS config)%Z) by (simpl; lia).
  destruct (generate_outcome (combine (kept x_and_a) [0; 200]%Z) g
              config_valid_jitters Hmax) as [H|H]; [exact H|].
  apply generate_no_points in H.
  assert (K : kept x_and_a = x_and_a) by (vm_compute; reflexivity).
  rewrite K in H. simpl in H.
  inversion H as [|? ? _ H2]; subst. inversion H2 as [|? ? H200 _]; subst.
  lia.
Qed.

End AnyLibrary.


(** C9, as stated, fails: city X has an infinite traffic, and the run
    over the table of X and A raises nothing and returns the 200 points of
    city A; with every logarithm that obeys the laws the counts are 0 and
    200 and the run returns. *)
Lemma malformed_row_run_returns :
  In city_x (kept x_and_a) /\
  city_traffic_raw x_and_a city_x = PInf /\
  @num_points_column Sim.numpy config x_and_a = Ok [0; 200]%Z /\
  (exists pts g', @point_cloud Sim.numpy config x_and_a 7%Z = Ok (pts, g') /\
                  List.length pts = 200%nat) /\
  (forall e, @point_cloud Sim.numpy config x_and_a 7%Z <> Raise e) /\
  (forall np : NumPy, Log1pLaws np ->
     @num_points_column np config x_and_a = Ok [0; 200]%Z /\
     forall g : rng, exists pts g',
       @point_cloud np config x_and_a g = Ok (pts, g')).
Proof.
  split; [vm_compute; left; reflexivity|].
  split; [vm_compute; reflexivity|].
  split; [vm_compute; reflexivity|].
  destruct (@point_cloud Sim.numpy config x_and_a 7%Z)
    as [[pts g']|e] eqn:E; [|vm_compute in E; discriminate E].
  split; [|split].
  - exists pts, g'. split; [reflexivity|].
    vm_compute in E. apply Ok_inj in E.
    apply (f_equal (fun r => List.length (fst r))) in E.
    simpl in E. symmetry. exact E.
  - intros e H. discriminate H.
  - intros np laws. split.
    + exact (x_and_a_counts laws).
    + intros g. exact (x_and_a_returns laws g).
Qed.

(** ** Lines 107-109 in binary64 *)

Module Rounding.

Import PrimFloat.



End Rounding.


(** * Properties of the tables *)

(** ** Units *)

Lemma lstrip_spaces (ws l : list ascii) :
  forallb is_space ws = true -> lstrip (ws ++ l) = lstrip l.
Proof.
  induction ws as [|a ws IH]; simpl; intros H; [reflexivity|].
  apply andb_true_iff in H. destruct H as [Ha Hws].
  rewrite Ha. apply IH. exact Hws.
Qed.

Lemma forallb_rev {A : Type} (f : A -> bool) (l : list A) :
  forallb f (rev l) = forallb f l.
Proof.
  induction l as [|a l IH]; simpl; [reflexivity|].
  rewrite forallb_app, IH. simpl. rewrite andb_true_r. apply andb_comm.
Qed.

Lemma list_ascii_of_string_app (s t : string) :
  list_ascii_of_string (s ++ t)
  = (list_ascii_of_string s ++ list_ascii_of_string t)%list.
Proof.
  induction s as [|a s IH]; simpl; [reflexivity|]. rewrite IH. reflexivity.
Qed.

(** Whitespace around a text does not change what [strip] returns. *)
Lemma strip_padding (ws1 ws2 s : string) :
  forallb is_space (list_ascii_of_string ws1) = true ->
  forallb is_space (list_ascii_of_string ws2) = true ->
  strip (ws1 ++ s ++ ws2) = strip s.
Proof.
  intros H1 H2. unfold strip. f_equal. f_equal.
  rewrite !list_ascii_of_string_app, (@lstrip_spaces _ _ H1).
  set (l := list_ascii_of_string s). set (w := list_ascii_of_string ws2) in *.
  assert (E : forall x, lstrip (rev (lstrip (x ++ w)))
                        = lstrip (rev (lstrip x))).
  { induction x as [|a x IH]; simpl.
    - assert (Hw : lstrip w = []).
      { clear -H2. induction w as [|b w IHw]; simpl in *; [reflexivity|].
        apply andb_true_iff in H2. destruct H2 as [Hb Hw]. rewrite Hb.
        apply IHw. exact Hw. }
      rewrite Hw. reflexivity.
    - destruct (is_space a); [exact IH|].
      simpl. rewrite rev_app_distr, <- app_assoc.
      apply lstrip_spaces. rewrite forallb_rev. exact H2. }
  apply E.
Qed.

(** The row [r] with another text in the unit cell. *)
Definition with_unit (r : TrafficRow) (u : option string) : TrafficRow :=
  {| tr_iso3 := tr_iso3 r; tr_country := tr_country r;
     tr_value := tr_value r; tr_unit := u |}.

(** X1.  Lines 79-80: whitespace around the unit does not change the
    terabytes of a row, and so not the country totals either. *)
Theorem unit_padding_ignored (r : TrafficRow) (ws1 ws2 u : string)
    (pre post : list TrafficRow) :
  forallb is_space (list_ascii_of_string ws1) = true ->
  forallb is_space (list_ascii_of_string ws2) = true ->
  tr_unit r = Some (ws1 ++ u ++ ws2)%string ->
  row_traffic_tb r = row_traffic_tb (with_unit r (Some u)) /\
  traffic_iso (pre ++ r :: post)
  = traffic_iso (pre ++ with_unit r (Some u) :: post).
Proof.
  intros H1 H2 Eu.
  assert (E : row_traffic_tb r = row_traffic_tb (with_unit r (Some u))).
  { unfold row_traffic_tb. rewrite Eu. simpl.
    rewrite (@strip_padding ws1 ws2 u H1 H2). reflexivity. }
  split; [exact E|].
  unfold traffic_iso. f_equal. unfold traffic_tb_rows. f_equal.
  unfold named_traffic. rewrite !flat_map_app, !map_app. f_equal.
  simpl. rewrite !map_app. f_equal.
  destruct (tr_iso3 r) as [k|]; [|reflexivity].
  destruct (tr_country r) as [n|].
  - destruct (String.eqb n "Unknown"); [reflexivity|].
    simpl. rewrite E. reflexivity.
  - simpl. rewrite E. reflexivity.
Qed.




(** ** The country totals *)

Lemma insert_key_perm (k : string) (l : list string) :
  Permutation (insert_key k l) (k :: l).
Proof.
  induction l as [|x l IH]; simpl; [apply Permutation_refl|].
  destruct (String.leb k x); [apply Permutation_refl|].
  apply Permutation_trans with (x :: k :: l).
  - apply perm_skip. exact IH.
  - apply perm_swap.
Qed.

Lemma sort_keys_perm (l : list string) :
  Permutation (fold_right insert_key [] l) l.
Proof.
  induction l as [|k l IH]; simpl; [apply Permutation_refl|].
  apply Permutation_trans with (k :: fold_right insert_key [] l).
  - apply insert_key_perm.
  - apply perm_skip. exact IH.
Qed.

Definition key_le (a b : string) : Prop := String.leb a b = true.

Lemma insert_key_sorted (k : string) (l : list string) :
  Sorted key_le l -> Sorted key_le (insert_key k l).
Proof.
  induction l as [|x l IH]; intros H; simpl.
  - constructor; constructor.
  - destruct (String.leb k x) eqn:E.
    + constructor; [exact H|]. constructor. exact E.
    + inversion H as [|? ? Hl Hx]; subst.
      constructor; [apply IH; exact Hl|].
      assert (Hxk : key_le x k).
      { destruct (String.leb_total k x) as [T|T]; [congruence|exact T]. }
      destruct l as [|y l]; simpl.
      * constructor. exact Hxk.
      * destruct (String.leb k y); constructor; [exact Hxk|].
        inversion Hx; subst. assumption.
Qed.

Lemma group_keys_spec (keys : list string) :
  NoDup (group_keys keys) /\ Sorted key_le (group_keys keys) /\
  (forall k, In k (group_keys keys) <-> In k keys).
Proof.
  unfold group_keys.
  pose proof (sort_keys_perm (nodup string_dec keys)) as P.
  split; [|split].
  - apply (Permutation_NoDup (Permutation_sym P)). apply NoDup_nodup.
  - clear P. induction (nodup string_dec keys) as [|k l IH]; simpl.
    + constructor.
    + apply insert_key_sorted. exact IH.
  - intros k. split; intros H.
    + apply (nodup_In string_dec). apply (Permutation_in _ P). exact H.
    + apply (Permutation_in _ (Permutation_sym P)).
      apply nodup_In. exact H.
Qed.

Lemma groupby_sum_keys (rows : list (string * float64)) :
  map fst (groupby_sum rows) = group_keys (map fst rows).
Proof.
  unfold groupby_sum. rewrite map_map. simpl. apply map_id.
Qed.

(** X3.  Line 84: the table of country totals has one row per country
    code, in ascending order of the codes, and its codes are those of the
    usable rows of the traffic table. *)
Theorem traffic_iso_keys (traffic : list TrafficRow) :
  NoDup (map fst (traffic_iso traffic)) /\
  Sorted key_le (map fst (traffic_iso traffic)) /\
  (forall k, In k (map fst (traffic_iso traffic)) <->
             In k (map fst (traffic_tb_rows traffic))).
Proof.
  unfold traffic_iso. rewrite groupby_sum_keys. apply group_keys_spec.
Qed.







(** ** The merged table *)

(** The city row a row of [merged] was made from, with its code. *)
Definition city_of (row : City) : string * CityRow :=
  (iso3 row,
   {| ci_iso3 := Some (iso3 row); ci_lat := lat row; ci_lng := lng row;
      ci_population := population row |}).

(** Whether some usable traffic row carries the code [k]. *)
Definition has_traffic (traffic : list TrafficRow) (k : string) : bool :=
  existsb (String.eqb k) (map fst (traffic_tb_rows traffic)).

Lemma has_traffic_In (traffic : list TrafficRow) (k : string) :
  has_traffic traffic k = true <-> In k (map fst (traffic_iso traffic)).
Proof.
  unfold has_traffic, traffic_iso. rewrite groupby_sum_keys.
  destruct (group_keys_spec (map fst (traffic_tb_rows traffic)))
    as (_ & _ & Hin).
  rewrite Hin, existsb_exists. split.
  - intros (x & Hx & E). apply String.eqb_eq in E. subst x. exact Hx.
  - intros H. exists k. split; [exact H|apply String.eqb_refl].
Qed.

(** In a table with one row per code, a code selects no row or one. *)
Lemma filter_unique_key (totals : list (string * float64)) (k : string) :
  NoDup (map fst totals) ->
  (filter (fun kt => String.eqb (fst kt) k) totals = [] /\
   ~ In k (map fst totals)) \/
  (exists t, filter (fun kt => String.eqb (fst kt) k) totals = [(k, t)] /\
             In (k, t) totals).
Proof.
  induction totals as [|[k' t'] totals IH]; intros Hnd; simpl.
  - left. split; [reflexivity|intros []].
  - inversion Hnd as [|? ? Hk' Hrest]; subst.
    destruct (String.eqb_spec k' k) as [E|E].
    + subst k'. right. exists t'. split; [|left; reflexivity].
      destruct (IH Hrest) as [[E0 _]|(t & E1 & Hin)].
      * rewrite E0. reflexivity.
      * exfalso. apply Hk'. change k with (fst (k, t)).
        apply in_map. exact Hin.
    + destruct (IH Hrest) as [[E0 Hn]|(t & E1 & Hin)].
      * left. split; [exact E0|]. intros [H|H]; [congruence|contradiction].
      * right. exists t. split; [exact E1|right; exact Hin].
Qed.

Lemma valid_cities_In (cities : list CityRow) (k : string) (c : CityRow) :
  In (k, c) (valid_cities cities) <->
  In c cities /\ ci_iso3 c = Some k /\
  gt0 (ci_population c) = true /\
  between (-90) 90 (ci_lat c) = true /\
  between (-180) 180 (ci_lng c) = true.
Proof.
  unfold valid_cities. rewrite in_flat_map. split.
  - intros (c' & Hc' & Hin).
    destruct (ci_iso3 c') as [k'|] eqn:Ek; [|destruct Hin].
    destruct (gt0 (ci_population c')) eqn:Ep; [|destruct Hin].
    destruct (between (-90) 90 (ci_lat c')) eqn:Ela; [|destruct Hin].
    destruct (between (-180) 180 (ci_lng c')) eqn:Elo; [|destruct Hin].
    destruct Hin as [E|[]]. injection E as <- <-. auto.
  - intros (Hc & Ek & Ep & Ela & Elo). exists c. split; [exact Hc|].
    rewrite Ek, Ep, Ela, Elo. left. reflexivity.
Qed.

Lemma city_row_eta (k : string) (c : CityRow) :
  ci_iso3 c = Some k ->
  {| ci_iso3 := Some k; ci_lat := ci_lat c; ci_lng := ci_lng c;
     ci_population := ci_population c |} = c.
Proof. destruct c; simpl. intros ->. reflexivity. Qed.

Lemma merged_city_rows (cities : list CityRow) (traffic : list TrafficRow) :
  map city_of (merged_of cities traffic)
  = filter (fun kc => has_traffic traffic (fst kc)) (valid_cities cities).
Proof.
  unfold merged_of, merge.
  assert (Hkeys : forall k c, In (k, c) (valid_cities cities) ->
                    ci_iso3 c = Some k).
  { intros k c H. apply valid_cities_In in H. apply H. }
  assert (Hnd : NoDup (map fst (traffic_iso traffic))).
  { unfold traffic_iso. rewrite groupby_sum_keys. apply group_keys_spec. }
  induction (valid_cities cities) as [|[k c] l IH]; [reflexivity|].
  simpl. rewrite map_app, IH by (intros k' c' H; apply Hkeys; right; exact H).
  clear IH. f_equal.
  destruct (filter_unique_key (traffic_iso traffic) k Hnd)
    as [[E0 Hn]|(t & E1 & Hin)].
  - rewrite E0. simpl.
    destruct (has_traffic traffic k) eqn:Eh; [|reflexivity].
    exfalso. apply Hn. apply has_traffic_In. exact Eh.
  - rewrite E1. simpl.
    assert (Eh : has_traffic traffic k = true).
    { apply has_traffic_In. change k with (fst (k, t)). apply in_map.
      exact Hin. }
    rewrite Eh. unfold city_of. simpl.
    rewrite (@city_row_eta k c (Hkeys k c (or_introl eq_refl))). reflexivity.
Qed.

Lemma valid_cities_length (cities : list CityRow) :
  (List.length (valid_cities cities) <= List.length cities)%nat.
Proof.
  unfold valid_cities. induction cities as [|c l IH]; simpl; [lia|].
  rewrite length_app.
  destruct (ci_iso3 c); [|simpl; lia].
  destruct (gt0 (ci_population c)
            && (between (-90) 90 (ci_lat c)
                && between (-180) 180 (ci_lng c))); simpl; lia.
Qed.

(** X5.  Line 102: the merged table holds exactly the valid cities whose
    country has a usable traffic row, every one of them once and in the
    order of the city file; it is never longer than the city file. *)
Theorem merged_cities_in_order (cities : list CityRow)
    (traffic : list TrafficRow) :
  map city_of (merged_of cities traffic)
  = filter (fun kc => has_traffic traffic (fst kc)) (valid_cities cities) /\
  (List.length (merged_of cities traffic) <= List.length cities)%nat.
Proof.
  pose proof (merged_city_rows cities traffic) as E.
  split; [exact E|].
  rewrite <- (length_map city_of), E.
  pose proof (filter_length_le (fun kc => has_traffic traffic (fst kc))
                (valid_cities cities)) as F.
  pose proof (valid_cities_length cities) as V. lia.
Qed.

Lemma fleb_Fin (a b : Q) : fleb (Fin a) (Fin b) = true <-> a <= b.
Proof. simpl. apply Qle_bool_iff. Qed.

Lemma between_Fin (lo hi : Q) (x : float64) :
  between lo hi x = true -> exists q, x = Fin q /\ lo <= q /\ q <= hi.
Proof.
  unfold between. intros H. apply andb_true_iff in H. destruct H as [H1 H2].
  destruct x as [| | |q]; try discriminate.
  exists q. split; [reflexivity|]. split; apply fleb_Fin; assumption.
Qed.

(** X6.  Lines 84-102: every row of the merged table has a positive
    population and finite coordinates on the globe, and carries, next to
    its own columns, the total of the usable traffic rows of its
    country. *)
Theorem merged_rows_valid (cities : list CityRow) (traffic : list TrafficRow)
    (row : City) :
  In row (merged_of cities traffic) ->
  gt0 (population row) = true /\
  (exists la, lat row = Fin la /\ -90 <= la /\ la <= 90) /\
  (exists lo, lng row = Fin lo /\ -180 <= lo /\ lo <= 180) /\
  In (iso3 row) (map fst (traffic_tb_rows traffic)) /\
  traffic_tb row
  = nansum (map snd (filter (fun kt => String.eqb (fst kt) (iso3 row))
                            (traffic_tb_rows traffic))).
Proof.
  unfold merged_of, merge. intros H. apply in_flat_map in H.
  destruct H as ([k c] & Hkc & Hrow). apply in_map_iff in Hrow.
  destruct Hrow as ([k' t] & <- & Hkt). simpl in *.
  apply filter_In in Hkt. destruct Hkt as [Hin Ek]. simpl in Ek.
  apply String.eqb_eq in Ek. subst k'.
  apply valid_cities_In in Hkc.
  destruct Hkc as (_ & _ & Hp & Hla & Hlo).
  split; [exact Hp|]. split; [apply between_Fin; exact Hla|].
  split; [apply between_Fin; exact Hlo|].
  unfold traffic_iso, groupby_sum in Hin. apply in_map_iff in Hin.
  destruct Hin as (k0 & E & Hk0). injection E as -> <-.
  split; [|reflexivity].
  apply (group_keys_spec (map fst (traffic_tb_rows traffic))). exact Hk0.
Qed.

(** ** Line 108 after line 94 *)

Lemma gt0_cases (x : float64) :
  gt0 x = true <-> x = PInf \/ exists q, x = Fin q /\ 0 < q.
Proof.
  split.
  - destruct x as [| | |q]; simpl; try discriminate.
    + auto.
    + intros H. right. exists q. split; [reflexivity|].
      apply gt0_Fin. exact H.
  - intros [->|(q & -> & H)]; [reflexivity|apply gt0_Fin; exact H].
Qed.

Lemma fold_fadd_positive (l : list float64) (acc : float64) :
  Forall (fun x => gt0 x = true) l ->
  acc = PInf \/ (exists a, acc = Fin a /\ 0 <= a) ->
  (l <> [] \/ gt0 acc = true) ->
  gt0 (fold_left fadd l acc) = true.
Proof.
  revert acc. induction l as [|x l IH]; intros acc Hall Hacc Hne; simpl.
  - destruct Hne as [Hne|Hne]; [congruence|exact Hne].
  - inversion Hall as [|? ? Hx Hl]; subst.
    assert (Hsum : gt0 (fadd acc x) = true).
    { apply gt0_cases in Hx.
      destruct Hacc as [->|(a & -> & Ha)];
        destruct Hx as [->|(q & -> & Hq)]; simpl; try reflexivity.
      apply gt0_Fin. lra. }
    apply IH; [exact Hl| |right; exact Hsum].
    apply gt0_cases in Hsum. destruct Hsum as [E|(q & E & Hq)].
    + left. exact E.
    + right. exists q. split; [exact E|lra].
Qed.

Lemma nansum_positive (l : list float64) :
  l <> [] -> Forall (fun x => gt0 x = true) l -> gt0 (nansum l) = true.
Proof.
  intros Hne Hall. unfold nansum.
  assert (E : filter (fun x => negb (isnan x)) l = l).
  { clear Hne. induction Hall as [|x l Hx _ IH]; simpl; [reflexivity|].
    destruct x; try discriminate Hx; simpl; rewrite IH; reflexivity. }
  rewrite E. apply fold_fadd_positive.
  - exact Hall.
  - right. exists 0. split; [reflexivity|lra].
  - left. exact Hne.
Qed.

Lemma filter_all_true {A : Type} (f : A -> bool) (l : list A) :
  (forall x, In x l -> f x = true) -> filter f l = l.
Proof.
  induction l as [|x l IH]; intros H; [reflexivity|].
  simpl. rewrite (H x (or_introl eq_refl)). f_equal.
  apply IH. intros y Hy. apply H. right. exact Hy.
Qed.

(** A table of positive populations loses no row at line 108. *)
Lemma kept_all_positive (merged : list City) :
  (forall c, In c merged -> gt0 (population c) = true) ->
  kept merged = merged.
Proof.
  intros Hpos. unfold kept.
  assert (H : forall c, In c merged -> gt0 (country_pop merged c) = true).
  { intros c Hc. unfold country_pop. apply nansum_positive.
    - intros E. apply map_eq_nil in E.
      assert (Hin : In c (filter (fun d => String.eqb (iso3 d) (iso3 c))
                             merged)).
      { apply filter_In. split; [exact Hc|apply String.eqb_refl]. }
      rewrite E in Hin. destruct Hin.
    - apply Forall_forall. intros x Hx. apply in_map_iff in Hx.
      destruct Hx as (d & <- & Hd). apply filter_In in Hd.
      apply Hpos. apply Hd. }
  apply filter_all_true. exact H.
Qed.

(** X7.  Lines 94 and 108: after the population filter of line 94 every
    country total of line 107 is positive, so line 108 drops no row of the
    merged table. *)
Theorem line_108_keeps_merged (cities : list CityRow)
    (traffic : list TrafficRow) :
  (forall row, In row (merged_of cities traffic) ->
     gt0 (country_pop (merged_of cities traffic) row) = true) /\
  kept (merged_of cities traffic) = merged_of cities traffic.
Proof.
  assert (Hpos : forall row, In row (merged_of cities traffic) ->
                   gt0 (population row) = true).
  { intros row H. unfold merged_of, merge in H. apply in_flat_map in H.
    destruct H as ([k c] & Hkc & Hrow). apply in_map_iff in Hrow.
    destruct Hrow as (kt & <- & _). simpl.
    apply valid_cities_In in Hkc. apply Hkc. }
  pose proof (kept_all_positive _ Hpos) as K.
  split; [|exact K].
  intros row H. rewrite <- K in H. apply filter_In in H. apply H.
Qed.

(** * More on the point cloud *)

(** ** The traffic of a country is shared out in full *)



(** ** The estimate of line 138 and the points returned *)

Definition total_draws (rows : list (City * Z)) : nat :=
  fold_right (fun r acc => (Z.to_nat (snd r) + acc)%nat) 0%nat rows.

Section Counting.

Context {np : NumPy}.

Lemma iterrows_count (cfg : SteamMapConfig) (rows : list (City * Z))
    (acc : Arrays) (g : rng) :
  valid_ratios cfg -> valid_jitters cfg ->
  exists acc' g', iterrows cfg rows acc g = Ok (acc', g') /\
    npoints (fst acc') = (npoints (fst acc) + total_draws rows)%nat /\
    npoints (snd acc') = (npoints (snd acc) + total_draws rows)%nat.
Proof.
  intros Hr Hj. revert acc g.
  induction rows as [|[c total] rest IH]; intros acc g; simpl.
  - exists acc, g. unfold ret. rewrite !Nat.add_0_r. auto.
  - unfold bind.
    destruct (@city_points_total np cfg c total Hr Hj acc g)
      as (a1 & g1 & E1 & L1 & R1).
    rewrite E1. destruct (IH a1 g1) as (a2 & g2 & E2 & L2 & R2).
    exists a2, g2. split; [exact E2|]. split; lia.
Qed.

Lemma num_points_of_nonneg (cfg : SteamMapConfig) (x : float64) (n : Z) :
  (0 <= MAX_POINTS_PER_CITY cfg)%Z ->
  num_points_of cfg x = Ok n -> (0 <= n)%Z.
Proof.
  intros Hcap. unfold num_points_of, num_points_float.
  destruct (fmul x (Fin (POINT_SCALE cfg))) as [| | |y].
  - cbv [clip_lower fltb ffloor astype_int]. discriminate.
  - cbv [clip_lower fltb ffloor astype_int]. discriminate.
  - change (clip_lower 0 NInf) with (Fin 0). cbn [ffloor astype_int].
    rewrite Qfloor_Z. intros H. apply Ok_inj in H. subst n.
    change (Qfloor 0) with 0%Z. destruct ((0 =? 0)%Z && gt0 x); lia.
  - rewrite clip_lower_Fin. cbn [ffloor astype_int]. rewrite Qfloor_Z.
  intros H. apply Ok_inj in H. subst n.
  assert (F : (0 <= Qfloor (if Qltb y 0 then 0 else y))%Z).
  { apply Qfloor_nonneg. destruct (Qltb y 0) eqn:E; [lra|].
    apply Qltb_false in E. exact E. }
    destruct ((Qfloor (if Qltb y 0 then 0 else y) =? 0)%Z && gt0 x); lia.
Qed.

Lemma total_draws_combine (rows : list City) (nums : list Z) :
  List.length nums = List.length rows ->
  Forall (fun n => (0 <= n)%Z) nums ->
  Z.of_nat (total_draws (combine rows nums)) = total_points_est nums.
Proof.
  revert nums. induction rows as [|c rows IH]; intros [|n nums] Hlen Hall;
    simpl in *; try reflexivity; try discriminate.
  inversion Hall as [|? ? Hn Hrest]; subst.
  rewrite Nat2Z.inj_add, IH by (try lia; assumption). lia.
Qed.


Lemma column_nonneg (cfg : SteamMapConfig) (merged : list City)
    (nums : list Z) :
  (0 <= MAX_POINTS_PER_CITY cfg)%Z ->
  num_points_column cfg merged = Ok nums ->
  Forall (fun n => (0 <= n)%Z) nums.
Proof.
  intros Hcap H. apply num_points_rows_Forall2 in H.
  induction H as [|c n rows ns Hc _ IH]; constructor; [|exact IH].
  eapply num_points_of_nonneg; [exact Hcap|exact Hc].
Qed.

(** The arrays of a loop that returned, put side by side. *)
Lemma generate_after_loop (cfg : SteamMapConfig) (rows : list (City * Z))
    (g : rng) :
  valid_ratios cfg -> valid_jitters cfg ->
  exists arrays g1,
    iterrows cfg rows ([], []) (seed_state 42) = Ok (arrays, g1) /\
    List.length (combine (List.concat (fst arrays))
                         (List.concat (snd arrays))) = total_draws rows.
Proof.
  intros Hr Hj.
  destruct (iterrows_count rows ([], []) (seed_state 42) Hr Hj)
    as (arrays & g1 & E & L & R).
  exists arrays, g1. split; [exact E|].
  rewrite length_combine. unfold npoints in L, R. simpl in L, R. lia.
Qed.


End Counting.

(** ** Down-sampling *)

(** What the proofs use of [RandomState.permutation]. *)
Definition lawful_permutation (np : NumPy) : Prop :=
  forall (g : rng) (n : nat), Permutation (permutation g n) (seq 0 n).

Lemma NoDup_firstn {A : Type} (n : nat) (l : list A) :
  NoDup l -> NoDup (firstn n l).
Proof.
  intros H. rewrite <- (firstn_skipn n l) in H.
  apply NoDup_app_remove_r in H. exact H.
Qed.

Lemma In_firstn {A : Type} (n : nat) (l : list A) (x : A) :
  In x (firstn n l) -> In x l.
Proof.
  intros H. rewrite <- (firstn_skipn n l). apply in_or_app. left. exact H.
Qed.

Lemma take_positions {A : Type} (idx : list nat) (l : list A) :
  Forall (fun i => (i < List.length l)%nat) idx ->
  Forall2 (fun i x => nth_error l i = Some x) idx (take idx l).
Proof.
  unfold take. induction idx as [|i idx IH]; intros H; simpl.
  - constructor.
  - inversion H as [|? ? Hi Hrest]; subst.
    destruct (nth_error l i) as [x|] eqn:E.
    + simpl. constructor; [exact E|apply IH; exact Hrest].
    + apply nth_error_None in E. lia.
Qed.

Section Sampling.

Context {np : NumPy}.

Hypothesis law : lawful_permutation np.

Lemma sample_positions {A : Type} (l r : list A) (n s : Z) :
  sample l n s = Ok r ->
  exists idx, NoDup idx /\ List.length idx = Z.to_nat n /\
    (0 <= n <= Z.of_nat (List.length l))%Z /\
    Forall2 (fun i x => nth_error l i = Some x) idx r.
Proof.
  unfold sample. destruct (Z.ltb_spec n 0) as [Hn|Hn]; [discriminate|].
  destruct (Z.ltb_spec (Z.of_nat (List.length l)) n) as [Hl|Hl];
    [discriminate|].
  intros H. apply Ok_inj in H. subst r.
  set (perm := permutation (seed_state s) (List.length l)).
  pose proof (law (seed_state s) (List.length l)) as P. fold perm in P.
  assert (Plen : List.length perm = List.length l).
  { rewrite (Permutation_length P). apply length_seq. }
  exists (firstn (Z.to_nat n) perm). split; [|split; [|split]].
  - apply NoDup_firstn.
    apply (Permutation_NoDup (Permutation_sym P)). apply seq_NoDup.
  - apply firstn_length_le. lia.
  - lia.
  - apply take_positions. apply Forall_forall. intros i Hi.
    apply In_firstn in Hi.
    apply (Permutation_in _ P) in Hi. apply in_seq in Hi. lia.
Qed.

(** X10.  Line 187: the sample is drawn without replacement.  When
    [permutation] returns a permutation, a sample of [n] rows holds the
    rows at [n] different positions of the frame: exactly [n] rows, each
    a row of the frame, none taken twice. *)
Theorem sample_without_replacement {A : Type} (l r : list A) (n s : Z) :
  sample l n s = Ok r ->
  Z.of_nat (List.length r) = n /\
  (forall x, In x r -> In x l) /\
  exists idx, NoDup idx /\
    Forall2 (fun i x => nth_error l i = Some x) idx r.
Proof.
  intros H. destruct (sample_positions l n s H) as (idx & Hnd & Hlen & Hn & F).
  split; [|split].
  - rewrite <- (Forall2_length F), Hlen. lia.
  - intros x Hx. clear -F Hx.
    induction F as [|i y idx r Hi _ IH]; [destruct Hx|].
    destruct Hx as [<-|Hx]; [|apply IH; exact Hx].
    apply nth_error_In in Hi. exact Hi.
  - exists idx. split; assumption.
Qed.

(** X11.  Lines 186-187: with a cap that the estimate of line 138
    exceeds, the run returns exactly [MAX_TOTAL_POINTS] points. *)
Theorem downsampled_to_the_cap (cfg : SteamMapConfig) (merged : list City)
    (nums : list Z) (g : rng) :
  valid_ratios cfg -> valid_jitters cfg ->
  (0 <= MAX_POINTS_PER_CITY cfg)%Z ->
  num_points_column cfg merged = Ok nums ->
  (0 <= MAX_TOTAL_POINTS cfg < total_points_est nums)%Z ->
  exists pts g', point_cloud cfg merged g = Ok (pts, g') /\
                 Z.of_nat (List.length pts) = MAX_TOTAL_POINTS cfg.
Proof.
  intros Hr Hj Hcap Ecol [Hmax Hlt].
  pose proof (column_nonneg cfg merged Hcap Ecol) as Hnn.
  assert (Hlen : List.length nums = List.length (kept merged))
    by (eapply num_points_rows_length; exact Ecol).
  pose proof (total_draws_combine (kept merged) Hlen Hnn) as Hsum.
  unfold point_cloud. rewrite Ecol.
  destruct (generate_after_loop (combine (kept merged) nums) g Hr Hj)
    as (arrays & g1 & E & L).
  unfold generate, bind, np_random_seed. rewrite E.
  assert (Hcase : fst arrays = [] \/ exists a rest, fst arrays = a :: rest)
    by (destruct (fst arrays); eauto).
  destruct Hcase as [Ea|(a & rest & Ea)].
  - exfalso. rewrite Ea in L. simpl in L.
    rewrite <- L in Hsum. simpl in Hsum. lia.
  - rewrite Ea. cbv iota. rewrite <- Ea.
    set (points := combine (List.concat (fst arrays))
                           (List.concat (snd arrays))) in *.
    assert (Hp : Z.of_nat (List.length points) = total_points_est nums).
    { transitivity (Z.of_nat (total_draws (combine (kept merged) nums)));
        [f_equal; exact L|exact Hsum]. }
    assert (Hyes : (Z.of_nat (List.length points) >? MAX_TOTAL_POINTS cfg)%Z
                   = true) by (rewrite Hp; lia).
    rewrite Hyes.
    destruct (sample points (MAX_TOTAL_POINTS cfg) 42) as [r|e] eqn:Es.
    + unfold ret. exists r, g1. split; [reflexivity|].
      destruct (sample_positions points (MAX_TOTAL_POINTS cfg) 42 Es)
        as (idx & _ & Hidx & _ & F).
      transitivity (Z.of_nat (List.length idx));
        [f_equal; symmetry; exact (Forall2_length F)|lia].
    + exfalso. unfold sample in Es.
      assert (E1 : (MAX_TOTAL_POINTS cfg <? 0)%Z = false) by lia.
      assert (E2 : (Z.of_nat (List.length points) <? MAX_TOTAL_POINTS cfg)%Z
                   = false) by (rewrite Hp; lia).
      rewrite E1, E2 in Es. discriminate Es.
Qed.

End Sampling.

(** ** How a run can fail *)

Section Failures.

Context {np : NumPy}.

Lemma num_points_rows_first_raise (cfg : SteamMapConfig)
    (merged rows : list City) (c : City) (e : exn) :
  In c rows -> num_points cfg merged c = Raise e ->
  num_points_rows cfg merged rows = Raise (ValueError msg_non_finite).
Proof.
  intros Hin He.
  destruct (num_points_rows cfg merged rows) as [nums|e'] eqn:E.
  - exfalso. apply num_points_rows_Forall2 in E.
    induction E as [|d n rows ns Hd _ IH]; [destruct Hin|].
    destruct Hin as [->|Hin]; [congruence|apply IH; exact Hin].
  - apply num_points_rows_raise in E. subst e'. reflexivity.
Qed.

(** X12.  Lines 122-130: a kept row whose cleaned traffic is below -1
    has no logarithm; the NaN passes the normalisation, the scaling, the
    clip and the floor, and the cast of line 130 ends the run, whatever
    the configuration and the other rows. *)
Theorem traffic_below_minus_one_aborts (cfg : SteamMapConfig)
    (merged : list City) (c : City) (q : Q) (g : rng) :
  In c (kept merged) -> city_traffic_tb merged c = Fin q -> q < -1 ->
  city_traffic_log merged c = NaN /\
  point_cloud cfg merged g = Raise (ValueError msg_non_finite).
Proof.
  intros Hc Eq Hq.
  assert (EL : city_traffic_log merged c = NaN).
  { unfold city_traffic_log, city_traffic_log_raw. rewrite Eq. unfold log1p.
    assert (E1 : Qltb q (-1) = true) by (apply Qltb_true; exact Hq).
    rewrite E1. destruct (gt0 (max_log merged)); reflexivity. }
  split; [exact EL|].
  unfold point_cloud, num_points_column.
  rewrite (@num_points_rows_first_raise cfg merged (kept merged) c
             (ValueError msg_non_finite) Hc).
  - reflexivity.
  - unfold num_points. rewrite EL. reflexivity.
Qed.

(** X13.  Lines 128-187: with jitters and a total cap that are not
    negative, a run either returns points or ends in one of two
    exceptions: the cast of line 130 on a value that is not finite, or
    the empty result of line 178.  NumPy's refusal of a negative scale
    and the two refusals of [DataFrame.sample] never occur. *)
Theorem run_fails_in_two_ways (cfg : SteamMapConfig) (merged : list City)
    (g : rng) (e : exn) :
  valid_jitters cfg -> (0 <= MAX_TOTAL_POINTS cfg)%Z ->
  point_cloud cfg merged g = Raise e ->
  (e = ValueError msg_non_finite /\
   num_points_column cfg merged = Raise e) \/
  (e = ValueError msg_no_points /\
   exists nums, num_points_column cfg merged = Ok nums /\
                Forall (fun n => (n <= 0)%Z) nums).
Proof.
  intros Hj Hmax. unfold point_cloud.
  destruct (num_points_column cfg merged) as [nums|e'] eqn:Ecol.
  - intros H. right.
    destruct (generate_outcome (combine (kept merged) nums) g Hj Hmax)
      as [(pts & g' & E)|E]; [congruence|].
    split; [congruence|]. exists nums. split; [reflexivity|].
    apply generate_no_points in E. rewrite map_snd_combine in E; [exact E|].
    eapply num_points_rows_length. exact Ecol.
  - unfold raise. intros H. injection H as <-. left.
    split; [|reflexivity].
    eapply num_points_rows_raise. exact Ecol.
Qed.

End Failures.

(** ** The size of a cloud *)

Section Size.

Context {np : NumPy}.

Hypothesis laws : Log1pLaws np.

Lemma budget_unit (cfg : SteamMapConfig) (d : Q) :
  0 <= POINT_SCALE cfg -> d <= 1 ->
  (budget cfg d <= Z.max 1 (Qfloor (POINT_SCALE cfg)))%Z.
Proof.
  intros Hs Hd. destruct (Qlt_le_dec 0 d) as [Hpos|Hneg].
  - rewrite (budget_pos cfg Hpos).
    assert (F : (Qfloor (d * POINT_SCALE cfg) <= Qfloor (POINT_SCALE cfg))%Z).
    { apply Qfloor_resp_le.
      assert (0 <= (1 - d) * POINT_SCALE cfg)
        by (apply Qmult_le_0_compat; lra). lra. }
    lia.
  - rewrite (budget_nonpos cfg Hneg Hs). lia.
Qed.

Lemma row_count_bound (cfg : SteamMapConfig) (merged : list City)
    (c : City) (n : Z) :
  0 <= POINT_SCALE cfg -> In c (kept merged) ->
  num_points cfg merged c = Ok n ->
  (n <= Z.max 1 (Qfloor (POINT_SCALE cfg)))%Z.
Proof.
  intros Hs Hc En.
  destruct (city_traffic_tb_Fin merged c) as [q Eq].
  destruct (Qlt_le_dec q 0) as [Hneg|Hq].
  - rewrite (num_points_neg_traffic laws cfg merged c Hs Eq Hneg En). lia.
  - assert (EL : city_traffic_log_raw merged c = Fin (ln1p q)).
    { unfold city_traffic_log_raw. rewrite Eq. apply log1p_nonneg_arg.
      exact Hq. }
    destruct (max_log_ge merged c Hc EL) as (m & Em & Hle).
    unfold num_points in En.
    rewrite (@log_of_kept_row np merged c q m Eq Hq Em), num_points_of_Fin in En.
    apply Ok_inj in En. subst n. apply budget_unit; [exact Hs|].
    destruct (Qltb 0 m) eqn:G.
    + apply Qltb_true in G. apply Qle_shift_div_r; lra.
    + apply Qltb_false in G. lra.
Qed.

Lemma counts_bound_rows (cfg : SteamMapConfig) (merged rows : list City)
    (nums : list Z) :
  0 <= POINT_SCALE cfg ->
  (forall c, In c rows -> In c (kept merged)) ->
  num_points_rows cfg merged rows = Ok nums ->
  Forall (fun n => (n <= Z.max 1 (Qfloor (POINT_SCALE cfg)))%Z) nums /\
  (total_points_est nums
   <= Z.of_nat (List.length rows) * Z.max 1 (Qfloor (POINT_SCALE cfg)))%Z.
Proof.
  intros Hs Hall F. apply num_points_rows_Forall2 in F.
  induction F as [|c n rows ns Hc _ IH].
  - split; [constructor|simpl; lia].
  - assert (Hn : (n <= Z.max 1 (Qfloor (POINT_SCALE cfg)))%Z).
    { eapply row_count_bound; [exact Hs| |exact Hc].
      apply Hall. left. reflexivity. }
    destruct IH as [IH1 IH2]; [intros d Hd; apply Hall; right; exact Hd|].
    split; [constructor; assumption|].
    cbn [total_points_est fold_right List.length].
    fold (total_points_est ns). lia.
Qed.

(** X14.  Lines 122-138: the normalisation of line 125 bounds every
    count by the scale.  With a scale that is not negative no row gets
    more than [max(1, floor(POINT_SCALE))] points, so the estimate of
    line 138 is at most that many points per kept row; the cap of line
    136 only matters when it is lower. *)
Theorem counts_bounded_by_scale (cfg : SteamMapConfig) (merged : list City)
    (nums : list Z) :
  0 <= POINT_SCALE cfg ->
  num_points_column cfg merged = Ok nums ->
  Forall (fun n => (n <= Z.max 1 (Qfloor (POINT_SCALE cfg)))%Z) nums /\
  (total_points_est nums
   <= Z.of_nat (List.length (kept merged))
      * Z.max 1 (Qfloor (POINT_SCALE cfg)))%Z.
Proof.
  intros Hs Ecol.
  apply (@counts_bound_rows cfg merged (kept merged) nums Hs
           (fun c H => H) Ecol).
Qed.

End Size.

(** ** A run from the two files *)

Section Files.

Context {np : NumPy}.

Lemma point_cloud_nil (cfg : SteamMapConfig) (g : rng) :
  point_cloud cfg [] g = Raise (ValueError msg_no_points).
Proof. reflexivity. Qed.

(** X15.  Lines 55-178: when no valid city has the code of a usable
    traffic row, the merged table is empty and the run ends in the
    exception of line 178.  An empty city file, an empty traffic file,
    and files with no code in common are cases of it. *)
Theorem no_common_code_raises (cfg : SteamMapConfig)
    (cities : list CityRow) (traffic : list TrafficRow) (g : rng) :
  (forall k c, In (k, c) (valid_cities cities) ->
               has_traffic traffic k = false) ->
  merged_of cities traffic = [] /\
  steam_map cfg cities traffic g = Raise (ValueError msg_no_points).
Proof.
  intros H.
  assert (E : merged_of cities traffic = []).
  { pose proof (merged_city_rows cities traffic) as M.
    assert (F : filter (fun kc => has_traffic traffic (fst kc))
                       (valid_cities cities) = []).
    { clear M. induction (valid_cities cities) as [|[k c] l IH];
        [reflexivity|].
      simpl. rewrite (H k c (or_introl eq_refl)). apply IH.
      intros k' c' Hin. apply (H k' c'). right. exact Hin. }
    rewrite F in M. destruct (merged_of cities traffic); [reflexivity|].
    discriminate M. }
  split; [exact E|].
  unfold steam_map. rewrite E. apply point_cloud_nil.
Qed.

End Files.

(** ** Rows without points *)

Section Skipped.

Context {np : NumPy}.

Lemma iterrows_filter (cfg : SteamMapConfig) (rows : list (City * Z))
    (acc : Arrays) (g : rng) :
  iterrows cfg rows acc g
  = iterrows cfg (filter (fun r => (0 <? snd r)%Z) rows) acc g.
Proof.
  revert acc g. induction rows as [|[c total] rest IH]; intros acc g.
  - reflexivity.
  - cbn [filter snd]. destruct (Z.ltb_spec 0 total) as [Hpos|Hle].
    + cbn [iterrows]. unfold bind.
      destruct (city_points cfg c total acc g) as [[a1 g1]|e];
        [apply IH|reflexivity].
    + cbn [iterrows]. unfold bind.
      rewrite (city_points_skip cfg c acc g Hle). apply IH.
Qed.

(** X16.  Lines 151-187: a row whose count is not positive takes no
    random number and leaves no trace.  The outcome of the loop, the check
    of line 177 and the down-sampling is the outcome for the rows with a
    positive count alone, in their order: the same points in the same
    order, the same state of the generator, the same exception. *)
Theorem rows_without_points_draw_nothing (cfg : SteamMapConfig)
    (rows : list (City * Z)) (g : rng) :
  generate cfg rows g
  = generate cfg (filter (fun r => (0 <? snd r)%Z) rows) g.
Proof.
  unfold generate, bind, np_random_seed.
  rewrite (iterrows_filter cfg rows ([], []) (seed_state 42)). reflexivity.
Qed.

End Skipped.

(** ** The theorems on two small files *)

(** Three usable traffic rows, two of them of ABC, and three rows the
    script cannot use. *)
Definition traffic_abc_pb : TrafficRow :=
  {| tr_iso3 := Some "ABC"; tr_country := Some "Abcland";
     tr_value := Fin 2; tr_unit := Some " PB " |}%string.

Definition traffic_abc_gb : TrafficRow :=
  {| tr_iso3 := Some "ABC"; tr_country := Some "Abcland";
     tr_value := Fin 512; tr_unit := Some "GB" |}%string.

Definition traffic_zzz : TrafficRow :=
  {| tr_iso3 := Some "ZZZ"; tr_country := None;
     tr_value := Fin 3; tr_unit := Some "TB" |}%string.

Definition traffic_unknown : TrafficRow :=
  {| tr_iso3 := Some "XXX"; tr_country := Some "Unknown";
     tr_value := Fin 7; tr_unit := Some "TB" |}%string.

Definition traffic_file : list TrafficRow :=
  [traffic_zzz; traffic_abc_pb; traffic_unknown; traffic_abc_gb].

(** Two valid cities of ABC, a city off the globe, a city without a code
    and a city of a country without traffic. *)
Definition cityrow (code : option string) (la lo pop : Q) : CityRow :=
  {| ci_iso3 := code; ci_lat := Fin la; ci_lng := Fin lo;
     ci_population := Fin pop |}.

Definition cities_file : list CityRow :=
  [cityrow (Some "ABC") 10 20 80; cityrow (Some "ABC") 95 0 5;
   cityrow None 1 2 3; cityrow (Some "QQQ") 4 5 6;
   cityrow (Some "ABC") 30 40 20]%string.

Example traffic_file_totals :
  traffic_tb_rows traffic_file
  = [("ZZZ", Fin (3 * 1)); ("ABC", Fin (2 * 1024));
     ("ABC", Fin (512 * (1 # 1024)))]%string /\
  map fst (traffic_iso traffic_file) = ["ABC"; "ZZZ"]%string /\
  List.length (merged_of cities_file traffic_file) = 2%nat.
Proof. repeat split; vm_compute; reflexivity. Qed.

Lemma unit_padding_ignored_witness :
  row_traffic_tb traffic_abc_pb
  = row_traffic_tb (with_unit traffic_abc_pb (Some "PB"%string)) /\
  traffic_iso ([traffic_zzz] ++ traffic_abc_pb :: [traffic_abc_gb])
  = traffic_iso ([traffic_zzz]
                 ++ with_unit traffic_abc_pb (Some "PB"%string)
                 :: [traffic_abc_gb]).
Proof.
  apply (@unit_padding_ignored traffic_abc_pb " " " " "PB"
           [traffic_zzz] [traffic_abc_gb]); reflexivity.
Defined.



Lemma merged_rows_valid_witness :
  gt0 (population city_a) = true /\
  (exists la, lat city_a = Fin la /\ -90 <= la /\ la <= 90) /\
  (exists lo, lng city_a = Fin lo /\ -180 <= lo /\ lo <= 180) /\
  In (iso3 city_a) (map fst (traffic_tb_rows traffic_file)) /\
  traffic_tb (with_traffic city_a (Fin (0 + 2 * 1024 + 512 * (1 # 1024))))
  = nansum (map snd (filter (fun kt => String.eqb (fst kt) (iso3 city_a))
                            (traffic_tb_rows traffic_file))).
Proof.
  apply (@merged_rows_valid cities_file traffic_file
           (with_traffic city_a (Fin (0 + 2 * 1024 + 512 * (1 # 1024))))).
  vm_compute. left. reflexivity.
Defined.

Lemma line_108_keeps_merged_witness :
  kept (merged_of cities_file traffic_file)
  = merged_of cities_file traffic_file.
Proof. apply (@line_108_keeps_merged cities_file traffic_file). Defined.



(** The rotations of [Sim] are permutations. *)
Lemma sim_permutation_lawful : lawful_permutation Sim.numpy.
Proof.
  intros g n. simpl. unfold Sim.permutation.
  set (k := Z.to_nat (g mod Z.of_nat (S n))).
  rewrite <- (firstn_skipn k (seq 0 n)) at 3.
  apply Permutation_app_comm.
Qed.

Lemma sample_without_replacement_witness :
  Z.of_nat (List.length [20; 30]%Z) = 2%Z /\
  (forall x, In x [20; 30]%Z -> In x [10; 20; 30; 40; 50]%Z) /\
  exists idx, NoDup idx /\
    Forall2 (fun i x => nth_error [10; 20; 30; 40; 50]%Z i = Some x)
            idx [20; 30]%Z.
Proof.
  apply (@sample_without_replacement Sim.numpy sim_permutation_lawful Z
           [10; 20; 30; 40; 50]%Z [20; 30]%Z 2%Z 43%Z).
  vm_compute. reflexivity.
Defined.

Lemma downsampled_to_the_cap_witness :
  exists pts g',
    @point_cloud Sim.numpy (with_max_total config 10) table 7%Z
    = Ok (pts, g') /\
    Z.of_nat (List.length pts) = 10%Z.
Proof.
  apply (@downsampled_to_the_cap Sim.numpy sim_permutation_lawful
           (with_max_total config 10) table [200; 186; 0; 0]%Z 7%Z).
  - exact config_valid_ratios.
  - exact config_valid_jitters.
  - simpl. lia.
  - vm_compute. reflexivity.
  - vm_compute. split; [discriminate|reflexivity].
Defined.

(** A city whose country reports -5 TB, next to city A. *)
Definition city_n : City := Sim.mkCity "NNN" 0 0 (Fin 1) (Fin (-5)).

Lemma traffic_below_minus_one_aborts_witness :
  @city_traffic_log Sim.numpy [city_a; city_n] city_n = NaN /\
  @point_cloud Sim.numpy config [city_a; city_n] 7%Z
  = Raise (ValueError msg_non_finite).
Proof.
  apply (@traffic_below_minus_one_aborts Sim.numpy config [city_a; city_n]
           city_n (-5 * (1 / (0 + 1))) 7%Z).
  - vm_compute. right. left. reflexivity.
  - vm_compute. reflexivity.
  - vm_compute. reflexivity.
Defined.

Lemma run_fails_in_two_ways_witness :
  (ValueError msg_no_points = ValueError msg_non_finite /\
   @num_points_column Sim.numpy config [city_z]
   = Raise (ValueError msg_no_points)) \/
  (ValueError msg_no_points = ValueError msg_no_points /\
   exists nums, @num_points_column Sim.numpy config [city_z] = Ok nums /\
                Forall (fun n => (n <= 0)%Z) nums).
Proof.
  apply (@run_fails_in_two_ways Sim.numpy config [city_z] 7%Z
           (ValueError msg_no_points)).
  - exact config_valid_jitters.
  - simpl. lia.
  - vm_compute. reflexivity.
Defined.

Lemma counts_bounded_by_scale_witness :
  Forall (fun n => (n <= Z.max 1 (Qfloor (POINT_SCALE config)))%Z)
         [200; 186; 0; 0]%Z /\
  (total_points_est [200; 186; 0; 0]%Z
   <= Z.of_nat (List.length (kept table))
      * Z.max 1 (Qfloor (POINT_SCALE config)))%Z.
Proof.
  apply (@counts_bounded_by_scale Sim.numpy sim_laws config table
           [200; 186; 0; 0]%Z).
  - vm_compute. discriminate.
  - vm_compute. reflexivity.
Defined.

Lemma no_common_code_raises_witness :
  merged_of [cityrow (Some "QQQ"%string) 4 5 6] traffic_file = [] /\
  @steam_map Sim.numpy config [cityrow (Some "QQQ"%string) 4 5 6]
     traffic_file 7%Z
  = Raise (ValueError msg_no_points).
Proof.
  apply (@no_common_code_raises Sim.numpy config
           [cityrow (Some "QQQ"%string) 4 5 6] traffic_file 7%Z).
  intros k c H. vm_compute in H. destruct H as [E|[]].
  injection E as <- <-. vm_compute. reflexivity.
Defined.
